(** * Habit-motivation chatbot: check-in store, streak calculator, milestone
      and motivation helpers.

    A shallow embedding of [database.py], [utils.py] and the message path of
    [chatbot.py].  Python exceptions are values of [exception]; a function
    that can raise returns a [result]; functions that touch the SQLite file or
    the wall clock are computations in the state-and-error monad [M] over a
    [world] (the database file plus the date the system clock shows). *)

From Stdlib Require Import ZArith List Bool Lia String Ascii.
From Stdlib Require Import Permutation Sorting.Sorted Eqdep_dec DecimalString.
Import ListNotations.
Open Scope Z_scope.

(** ** Exceptions and results *)

(** The exception classes the modelled code can meet.  [KeyboardInterrupt]
    and [SystemExit] derive from [BaseException] only; every other class
    derives from [Exception], which is what [except Exception] catches.
    [ProviderError] stands for any [Exception] subclass raised inside the
    langchain / OpenAI call. *)
Inductive exception : Type :=
| OverflowError
| IntegrityError
| IndexError
| ProviderError (msg : string)
| KeyboardInterrupt
| SystemExit.

Definition is_Exception (e : exception) : bool :=
  match e with
  | KeyboardInterrupt | SystemExit => false
  | _ => true
  end.

Inductive result (A : Type) : Type :=
| Ok (a : A)
| Raise (e : exception).
Arguments Ok {A} a.
Arguments Raise {A} e.

(** ** SQLite integers *)

(** The integers an INTEGER column holds and [sqlite3] binds to a [?] of a
    statement: the signed 64-bit range.  The definitions of [database.py]
    below give what a statement does once its integer parameters are
    bound, that is for ids in this range; binding a Python int outside it
    raises [OverflowError] before the statement runs, and that path is not
    part of them.  Where a statement is about an id that need not be the
    id of a stored habit or user, it carries [sqlite_integer] as a
    hypothesis. *)
Definition sqlite_integer (n : Z) : Prop :=
  -9223372036854775808 <= n <= 9223372036854775807.

(** ** datetime.date *)

Module Datetime.

(** [date.min.toordinal()] and [date.max.toordinal()]. *)
Definition MINORDINAL : Z := 1.
Definition MAXORDINAL : Z := 3652059.

Definition in_range (o : Z) : bool := (MINORDINAL <=? o) && (o <=? MAXORDINAL).

(** A [datetime.date], identified by its proleptic Gregorian ordinal
    ([date.toordinal()]); the type holds exactly the dates
    0001-01-01 .. 9999-12-31. *)
Record date : Type := mkdate {
  toordinal : Z;
  date_in_range : in_range toordinal = true
}.

Definition in_range_dec (o : Z) : {in_range o = true} + {in_range o = false} :=
  match in_range o as b return {b = true} + {b = false} with
  | true => left eq_refl
  | false => right eq_refl
  end.

(** [timedelta(days=n)]: raises [OverflowError] outside
    [-999999999 .. 999999999]. *)
Definition timedelta (days : Z) : result Z :=
  if Z.abs days <=? 999999999 then Ok days else Raise OverflowError.

(** [d - delta] for a date and a timedelta of [delta] days
    ([date.__sub__] / [date.__add__]): the ordinal is shifted and the result
    must again be a date, else [OverflowError]. *)
Definition date_sub (d : date) (delta : Z) : result date :=
  let o := toordinal d - delta in
  match in_range_dec o with
  | left H => Ok (mkdate o H)
  | right _ => Raise OverflowError
  end.

(** [a == b] on dates. *)
Definition date_eqb (a b : date) : bool := toordinal a =? toordinal b.

End Datetime.
Import Datetime.

(** ** database.py *)

Module Database.

(** *** Tables

    [checkin_date] is stored as ISO text ([date.isoformat()], fixed width
    [YYYY-MM-DD]) and parsed back with [strptime]; on such text the byte-wise
    order of SQLite coincides with the order of the dates, so a row keeps the
    [date] itself.  [completed] is the INTEGER column. *)
Record habit_row : Type := mk_habit {
  habit_id : Z;
  habit_user_id : Z;
  habit_name : string;
  start_date : date
}.

Record progress_row : Type := mk_progress {
  progress_id : Z;
  progress_habit_id : Z;
  checkin_date : date;
  completed : Z
}.

(** The file [habits.db]: the two tables the check-in path touches and the
    AUTOINCREMENT counter of [progress] (the largest rowid handed out). *)
Record database : Type := mk_db {
  habits : list habit_row;
  progress : list progress_row;
  progress_seq : Z
}.

(** What a call can observe and change: the database file, and the date
    [date.today()] returns. *)
Record world : Type := mk_world {
  db : database;
  today : date
}.

(** *** The monad of database operations *)

Definition M (A : Type) : Type := world -> result A * world.

Definition ret {A : Type} (a : A) : M A := fun w => (Ok a, w).

Definition bind {A B : Type} (m : M A) (k : A -> M B) : M B :=
  fun w =>
    match m w with
    | (Ok a, w') => k a w'
    | (Raise e, w') => (Raise e, w')
    end.

Definition lift {A : Type} (r : result A) : M A := fun w => (r, w).

Notation "x <- c ;; k" := (bind c (fun x => k))
  (at level 61, c at next level, right associativity).

(** [date.today()] *)
Definition date_today : M date := fun w => (Ok (today w), w).

(** *** Connections

    [sqlite3.connect] opens a fresh connection; SQLite enforces foreign keys
    only on a connection that ran [PRAGMA foreign_keys = ON].
    [_get_connection] runs no pragma (only [initialize_db] does, on its own
    connection). *)
Record connection : Type := mk_conn { foreign_keys : bool }.

Definition _get_connection : connection := {| foreign_keys := false |}.

Definition habit_exists (hid : Z) (d : database) : bool :=
  existsb (fun h => habit_id h =? hid) (habits d).

(** [INSERT INTO progress (habit_id, checkin_date, completed) VALUES (?, ?, ?)]
    followed by [commit], for a habit id in [sqlite_integer]. *)
Definition insert_progress (conn : connection) (hid : Z) (d : date) (c : Z) : M unit :=
  fun w =>
    if foreign_keys conn && negb (habit_exists hid (db w)) then
      (Raise IntegrityError, w)
    else
      let rowid := progress_seq (db w) + 1 in
      (Ok tt,
       {| db := {| habits := habits (db w);
                   progress := progress (db w) ++ [mk_progress rowid hid d c];
                   progress_seq := rowid |};
          today := today w |}).

(** [ORDER BY checkin_date DESC] *)
Fixpoint insert_desc (d : date) (l : list date) : list date :=
  match l with
  | [] => [d]
  | x :: xs =>
      if toordinal x <=? toordinal d then d :: l else x :: insert_desc d xs
  end.

Definition order_by_desc (l : list date) : list date :=
  fold_right insert_desc [] l.

(** [WHERE habit_id = ? AND completed = 1] *)
Definition is_completed_for (hid : Z) (r : progress_row) : bool :=
  (progress_habit_id r =? hid) && (completed r =? 1).

(** [SELECT checkin_date FROM progress WHERE habit_id = ? AND completed = 1
     ORDER BY checkin_date DESC], for a habit id in [sqlite_integer]. *)
Definition select_completed_dates (hid : Z) (d : database) : list date :=
  order_by_desc (map checkin_date (filter (is_completed_for hid) (progress d))).

(** *** Operations *)

Definition log_checkin (hid : Z) (completed : bool) (checkin_date : option date) : M unit :=
  checkin_date <- match checkin_date with
                   | None => date_today
                   | Some d => ret d
                   end ;;
  insert_progress _get_connection hid checkin_date (Z.b2z completed).

Definition _get_completed_dates (hid : Z) : M (list date) :=
  fun w => (Ok (select_completed_dates hid (db w)), w).

(** The [for i, record_date in enumerate(completed_dates)] loop of
    [get_streak], entered at index [i] with counter [streak]. *)
Fixpoint streak_loop (today : date) (i : nat) (streak : Z) (l : list date) : result Z :=
  match l with
  | [] => Ok streak
  | record_date :: rest =>
      match timedelta (Z.of_nat i) with
      | Raise e => Raise e
      | Ok delta =>
          match date_sub today delta with
          | Raise e => Raise e
          | Ok expected =>
              if date_eqb record_date expected
              then streak_loop today (S i) (streak + 1) rest
              else Ok streak
          end
      end
  end.

Definition get_streak (hid : Z) : M Z :=
  completed_dates <- _get_completed_dates hid ;;
  match completed_dates with
  | [] => ret 0
  | _ :: _ =>
      today <- date_today ;;
      lift (streak_loop today 0 0 completed_dates)
  end.

End Database.

(** ** utils.py *)

Module Utils.

Definition QUOTES : list string := [
  "Every journey begins with a single step.";
  "Success is the sum of small efforts, repeated day in and day out.";
  "Don't watch the clock; do what it does. Keep going.";
  "The secret of getting ahead is getting started.";
  "Keep pushing forward – your hard work will pay off.";
  "Discipline is choosing between what you want now and what you want most.";
  "Little by little, a little becomes a lot."
]%string.

(** [random.choice(seq)]: [IndexError] on an empty sequence, else the element
    at the index the generator draws; [r] is the generator's draw. *)
Definition random_choice {A : Type} (r : nat) (seq : list A) : result A :=
  match nth_error seq (Nat.modulo r (List.length seq)) with
  | Some x => Ok x
  | None => Raise IndexError
  end.

Definition get_random_quote (r : nat) : result string := random_choice r QUOTES.

(** [str(n)] for an int. *)
Definition str (n : Z) : string := NilZero.string_of_int (Z.to_int n).

(** [streak in (3, 7, 10)] *)
Definition in_milestones (streak : Z) : bool :=
  existsb (Z.eqb streak) [3; 7; 10].

Definition get_milestone_message (streak : Z) : string :=
  if in_milestones streak then
    ("🎉 You've hit a " ++ str streak ++ "-day streak! Amazing discipline!")%string
  else EmptyString.

End Utils.

(** ** chatbot.py: the motivation message *)

Module Chatbot.
Import Utils.

(** What [get_motivational_message] reads from outside: the environment
    variable, the remote model (construction of [ChatOpenAI], the call on the
    two messages and the [content] of the reply, any of which may raise), and
    the draw of the random generator. *)
Record environment : Type := mk_env {
  getenv_OPENAI_API_KEY : option string;
  chat_openai : string -> string -> result string;
  random_draw : nat
}.

Definition system_prompt : string :=
  ("You are a friendly and supportive assistant. Your job is to encourage "
   ++ "recent graduates who are forming healthy habits.")%string.

Definition human_prompt (user_name habit_name : string) (streak : Z) : string :=
  ("User " ++ user_name ++ " is working on the habit of '" ++ habit_name ++ "'. "
   ++ "They currently have a streak of " ++ str streak ++ " days. "
   ++ "Provide a concise, upbeat motivational message to keep them going.")%string.

(** [not api_key] *)
Definition api_key_missing (k : option string) : bool :=
  match k with
  | None => true
  | Some EmptyString => true
  | Some _ => false
  end.

Section MotivationalMessage.

(** [str.strip] *)
Variable strip : string -> string.

Definition get_motivational_message (env : environment)
    (user_name habit_name : string) (streak : Z) : result string :=
  if api_key_missing (getenv_OPENAI_API_KEY env) then
    get_random_quote (random_draw env)
  else
    match chat_openai env system_prompt (human_prompt user_name habit_name streak) with
    | Ok content => Ok (strip content)
    | Raise exc =>
        if is_Exception exc then get_random_quote (random_draw env)
        else Raise exc
    end.

End MotivationalMessage.

Definition celebrate_milestone (streak : Z) : string := get_milestone_message streak.

End Chatbot.

(** ** Scenarios

    Concrete histories used to run the definitions. *)

Module Scenarios.
Import Database Utils Chatbot.

(** 2025-07-27 .. 2025-07-30 *)
Definition jul27 : date := mkdate 739459 eq_refl.
Definition jul28 : date := mkdate 739460 eq_refl.
Definition jul29 : date := mkdate 739461 eq_refl.
Definition jul30 : date := mkdate 739462 eq_refl.

Definition reading : habit_row := mk_habit 1 1 "Read 10 pages" jul27.

Definition world_of (rows : list progress_row) (d : date) : world :=
  {| db := {| habits := [reading]; progress := rows;
              progress_seq := Z.of_nat (List.length rows) |};
     today := d |}.

(** Completed on the 28th and the 29th, one row each. *)
Definition two_days : list progress_row :=
  [mk_progress 1 1 jul28 1; mk_progress 2 1 jul29 1].

(** The same two days entered in the other order. *)
Definition two_days_reversed : list progress_row :=
  [mk_progress 1 1 jul29 1; mk_progress 2 1 jul28 1].

(** The same two days, the check-in of the 29th confirmed twice. *)
Definition two_days_twice : list progress_row :=
  [mk_progress 1 1 jul28 1; mk_progress 2 1 jul29 1; mk_progress 3 1 jul29 1].

(** A miss on the 28th between two completed days. *)
Definition with_gap : list progress_row :=
  [mk_progress 1 1 jul27 1; mk_progress 2 1 jul28 0; mk_progress 3 1 jul29 1].

(** A key is configured and the remote call fails. *)
Definition failing_provider : environment :=
  {| getenv_OPENAI_API_KEY := Some "sk-test"%string;
     chat_openai := fun _ _ => Raise (ProviderError "connection refused");
     random_draw := 11 |}.

End Scenarios.

(** ** Terms of the statements *)

Module Terms.
Import Database.

(** [a] is not earlier than [b]. *)
Definition desc (a b : date) : Prop := toordinal b <= toordinal a.

(** The habit has a row with [completed = 1] dated [day]. *)
Definition completed_on (d : database) (hid : Z) (day : date) : Prop :=
  exists r, In r (progress d) /\ progress_habit_id r = hid
            /\ completed r = 1 /\ checkin_date r = day.

(** The completed rows of a habit, in table order. *)
Definition completed_rows (d : database) (hid : Z) : list progress_row :=
  filter (is_completed_for hid) (progress d).

(** How often [day] occurs in a sequence of dates. *)
Definition count_date (day : date) (l : list date) : nat :=
  List.length (filter (date_eqb day) l).

(** The date [k] days before [d], as an ordinal. *)
Definition days_before (d : date) (k : Z) : Z := toordinal d - k.

(** [n] check-ins in a row with the same arguments. *)
Fixpoint repeat_checkin (n : nat) (hid : Z) (c : bool) (day : option date) : M unit :=
  match n with
  | O => ret tt
  | S k => bind (log_checkin hid c day) (fun _ => repeat_checkin k hid c day)
  end.

(** The date a check-in is filed under: the one given, else the clock's. *)
Definition checkin_day (day : option date) (w : world) : date :=
  match day with
  | Some d => d
  | None => today w
  end.

(** The world with one more [progress] row. *)
Definition after_checkin (hid : Z) (c : bool) (day : option date) (w : world) : world :=
  {| db := {| habits := habits (db w);
              progress := progress (db w)
                          ++ [mk_progress (progress_seq (db w) + 1) hid
                                (checkin_day day w) (Z.b2z c)];
              progress_seq := progress_seq (db w) + 1 |};
     today := today w |}.

(** What a check-in recorded, without the rowid it was given. *)
Definition checkin_of (r : progress_row) : Z * date * Z :=
  (progress_habit_id r, checkin_date r, completed r).

Definition is_completed_checkin (hid : Z) (c : Z * date * Z) : bool :=
  let '(h, _, done) := c in (h =? hid) && (done =? 1).

(** A row of habit [hid] dated [day] with completion flag [c]. *)
Definition is_checkin_of (hid : Z) (day : date) (c : bool) (r : progress_row) : Prop :=
  progress_habit_id r = hid /\ checkin_date r = day /\ completed r = Z.b2z c.

End Terms.

(** ** Histories at the edges of the calendar *)

Module EdgeScenarios.
Import Database.

(** 0001-01-01 and 0001-01-02, the first two dates there are. *)
Definition day1 : date := mkdate 1 eq_refl.
Definition day2 : date := mkdate 2 eq_refl.

(** Completed on both days, the first one recorded twice; read on the
    second day. *)
Definition dawn : world :=
  {| db := {| habits := [];
              progress := [mk_progress 1 1 day1 1; mk_progress 2 1 day1 1;
                           mk_progress 3 1 day2 1];
              progress_seq := 3 |};
     today := day2 |}.

(** The world read on another day. *)
Definition as_of (w : world) (d : date) : world := {| db := db w; today := d |}.

End EdgeScenarios.

(** ** database.py: users and habits *)

Module Store.
Import Database.

Record user_row : Type := mk_user {
  user_id : Z;
  user_name : string
}.

(** The whole of [habits.db] and the clock: the world of the check-in path
    ([base]), the [users] table, and the AUTOINCREMENT counters of [users]
    and [habits] (rows of [sqlite_sequence]). *)
Record state : Type := mk_state {
  base : world;
  users : list user_row;
  users_seq : Z;
  habits_seq : Z
}.

(** Operations on the whole state. *)
Definition Op (A : Type) : Type := state -> result A * state.

(** A computation of the check-in path, run on the whole state. *)
Definition on_base {A : Type} (m : M A) : Op A :=
  fun st =>
    let (r, w) := m (base st) in
    (r, {| base := w; users := users st;
           users_seq := users_seq st; habits_seq := habits_seq st |}).

(** The rowid of an INTEGER PRIMARY KEY AUTOINCREMENT column for a new
    row: one more than the largest rowid the table holds or ever held.
    (The 64-bit limit of SQLite rowids is out of reach and left out.) *)
Definition max_rowid (ids : list Z) : Z := fold_right Z.max 0 ids.

Definition next_rowid (seq : Z) (ids : list Z) : Z :=
  Z.max seq (max_rowid ids) + 1.

(** [WHERE name = ?] *)
Definition user_named (name : string) (u : user_row) : bool :=
  String.eqb (user_name u) name.

(** [INSERT INTO users (name) VALUES (?)] and [commit]; [name] is UNIQUE.
    The result is [cur.lastrowid]. *)
Definition insert_user (name : string) : Op Z :=
  fun st =>
    if existsb (user_named name) (users st) then (Raise IntegrityError, st)
    else
      let rowid := next_rowid (users_seq st) (map user_id (users st)) in
      (Ok rowid,
       {| base := base st;
          users := users st ++ [mk_user rowid name];
          users_seq := rowid;
          habits_seq := habits_seq st |}).

(** [SELECT id FROM users WHERE name = ?] and [fetchone]. *)
Definition select_user_id (name : string) : Op (option Z) :=
  fun st => (Ok (option_map user_id (find (user_named name) (users st))), st).

Definition add_user (name : string) : Op Z :=
  fun st =>
    match insert_user name st with
    | (Ok rowid, st') => (Ok rowid, st')
    | (Raise IntegrityError, st') =>
        match select_user_id name st' with
        | (Ok (Some id), st'') => (Ok id, st'')
        | (Ok None, st'') => (Raise IntegrityError, st'')
        | (Raise e, st'') => (Raise e, st'')
        end
    | (Raise e, st') => (Raise e, st')
    end.

Definition get_user_id (name : string) : Op (option Z) := select_user_id name.

Definition user_exists (uid : Z) (st : state) : bool :=
  existsb (fun u => user_id u =? uid) (users st).

(** [INSERT INTO habits (user_id, name, start_date) VALUES (?, ?, ?)] and
    [commit], for a user id in [sqlite_integer]; the result is
    [cur.lastrowid]. *)
Definition insert_habit (conn : connection) (uid : Z) (name : string) (start : date) : Op Z :=
  fun st =>
    if foreign_keys conn && negb (user_exists uid st) then (Raise IntegrityError, st)
    else
      let rowid := next_rowid (habits_seq st) (map habit_id (habits (db (base st)))) in
      (Ok rowid,
       {| base := {| db := {| habits := habits (db (base st))
                                         ++ [mk_habit rowid uid name start];
                              progress := progress (db (base st));
                              progress_seq := progress_seq (db (base st)) |};
                     today := today (base st) |};
          users := users st;
          users_seq := users_seq st;
          habits_seq := rowid |}).

Definition add_habit (uid : Z) (habit_name : string) : Op Z :=
  fun st =>
    let start := today (base st) in
    insert_habit _get_connection uid habit_name start st.

(** The three columns [get_habits] selects: [id], [name], [start_date]. *)
Record habit_view : Type := mk_view {
  view_id : Z;
  view_name : string;
  view_start_date : date
}.

Definition view_of (h : habit_row) : habit_view :=
  {| view_id := habit_id h; view_name := habit_name h;
     view_start_date := start_date h |}.

(** [ORDER BY id] *)
Fixpoint insert_by_id (h : habit_row) (l : list habit_row) : list habit_row :=
  match l with
  | [] => [h]
  | x :: xs =>
      if habit_id h <=? habit_id x then h :: l else x :: insert_by_id h xs
  end.

Definition order_by_id (l : list habit_row) : list habit_row :=
  fold_right insert_by_id [] l.

(** [WHERE user_id = ?] *)
Definition owned_by (uid : Z) (h : habit_row) : bool := habit_user_id h =? uid.

Definition get_habits (uid : Z) : Op (list habit_view) :=
  fun st =>
    (Ok (map view_of (order_by_id (filter (owned_by uid) (habits (db (base st)))))), st).

(** Every check-in belongs to a habit of the [habits] table. *)
Definition referential_integrity (d : database) : Prop :=
  forall r, In r (progress d) -> habit_exists (progress_habit_id r) d = true.

(** A state to run the operations on: one user with the habit and the
    check-ins of a scenario. *)
Definition state_of (w : world) : state :=
  {| base := w; users := [mk_user 1 "Adi"]; users_seq := 1; habits_seq := 1 |}.

End Store.

(** ** chatbot.py: the prompts that write to the database *)

Module Session.
Import Database Store Utils Chatbot.
Open Scope string_scope.

(** What ends a call early: an exception of the layers below, or
    [EOFError] from [input] when standard input is exhausted. *)
Inductive failure : Type :=
| Raised (e : exception)
| EOFError.

Inductive outcome (A : Type) : Type :=
| Done (a : A)
| Failed (f : failure).
Arguments Done {A} a.
Arguments Failed {A} f.

(** The terminal: the lines still to be typed, and what was written so
    far (each [print] and each prompt of [input] is one entry). *)
Record console : Type := mk_console {
  stdin : list string;
  stdout : list string
}.

Record process : Type := mk_process {
  store : state;
  tty : console;
  env : environment
}.

Definition Proc (A : Type) : Type := process -> outcome A * process.

Definition pure {A : Type} (a : A) : Proc A := fun p => (Done a, p).

Definition and_then {A B : Type} (m : Proc A) (k : A -> Proc B) : Proc B :=
  fun p =>
    match m p with
    | (Done a, p') => k a p'
    | (Failed f, p') => (Failed f, p')
    end.

Notation "x <-- c ;; k" := (and_then c (fun x => k))
  (at level 61, c at next level, right associativity).

(** A database operation run inside the process. *)
Definition database_call {A : Type} (m : Op A) : Proc A :=
  fun p =>
    match m (store p) with
    | (Ok a, st) => (Done a, {| store := st; tty := tty p; env := env p |})
    | (Raise e, st) => (Failed (Raised e), {| store := st; tty := tty p; env := env p |})
    end.

(** A call that touches neither the database nor the terminal. *)
Definition call {A : Type} (f : environment -> result A) : Proc A :=
  fun p =>
    match f (env p) with
    | Ok a => (Done a, p)
    | Raise e => (Failed (Raised e), p)
    end.

Definition write (text : string) (c : console) : console :=
  {| stdin := stdin c; stdout := stdout c ++ [text] |}.

(** [print(text)] *)
Definition print (text : string) : Proc unit :=
  fun p => (Done tt, {| store := store p; tty := write text (tty p); env := env p |}).

(** The line feed of the f-strings. *)
Definition LF : string := String (ascii_of_nat 10) EmptyString.

(** [answer in {"yes", "y", "no", "n"}] *)
Definition is_yes_or_no (answer : string) : bool :=
  existsb (String.eqb answer) ["yes"; "y"; "no"; "n"].

Section Prompts.

(** [str.strip] and [str.lower] *)
Variable strip : string -> string.
Variable lower : string -> string.

(** The [while True] loop of [daily_checkin]: [input("Enter yes or no: ")]
    until the answer is one of the four words; the result is
    [answer.startswith("y")]. *)
Fixpoint ask_yes_or_no (lines : list string) (out : list string)
  : outcome bool * console :=
  match lines with
  | [] => (Failed EOFError, {| stdin := []; stdout := out ++ ["Enter yes or no: "] |})
  | line :: rest =>
      let answer := lower (strip line) in
      if is_yes_or_no answer then
        (Done (String.prefix "y" answer),
         {| stdin := rest; stdout := out ++ ["Enter yes or no: "] |})
      else
        ask_yes_or_no rest
          (out ++ ["Enter yes or no: "] ++ ["Please type 'yes' or 'no'."])
  end.

Definition read_yes_or_no : Proc bool :=
  fun p =>
    let (r, c) := ask_yes_or_no (stdin (tty p)) (stdout (tty p)) in
    (r, {| store := store p; tty := c; env := env p |}).

Definition daily_checkin (habit_id : Z) (habit_name user_name : string) : Proc unit :=
  _ <-- print (LF ++ "Did you complete '" ++ habit_name ++ "' today? (yes/no)") ;;
  completed <-- read_yes_or_no ;;
  _ <-- database_call (on_base (log_checkin habit_id completed None)) ;;
  streak <-- (if completed then database_call (on_base (get_streak habit_id))
              else pure 0%Z) ;;
  _ <-- (if completed then
           _ <-- print ("Great job! You're on a " ++ str streak ++ "-day streak.") ;;
           let milestone_msg := celebrate_milestone streak in
           match milestone_msg with
           | EmptyString => pure tt
           | _ => print milestone_msg
           end
         else
           print "No worries, tomorrow is a new opportunity to get back on track!") ;;
  message <-- call (fun e => get_motivational_message strip e user_name habit_name streak) ;;
  print (LF ++ "Motivation: " ++ message ++ LF).

(** The [while True] loop of [_create_new_habit]: ask until the name is
    not empty after [strip]. *)
Fixpoint ask_habit_name (lines : list string) (out : list string)
  : outcome string * console :=
  match lines with
  | [] => (Failed EOFError,
           {| stdin := [];
              stdout := out ++ ["Enter the name of the habit you want to track: "] |})
  | line :: rest =>
      let habit_name := strip line in
      match habit_name with
      | EmptyString =>
          ask_habit_name rest
            (out ++ ["Enter the name of the habit you want to track: "]
                 ++ ["Habit name cannot be empty. Please try again."])
      | _ =>
          (Done habit_name,
           {| stdin := rest;
              stdout := out ++ ["Enter the name of the habit you want to track: "] |})
      end
  end.

Definition read_habit_name : Proc string :=
  fun p =>
    let (r, c) := ask_habit_name (stdin (tty p)) (stdout (tty p)) in
    (r, {| store := store p; tty := c; env := env p |}).

Definition _create_new_habit (user_id : Z) : Proc Z :=
  habit_name <-- read_habit_name ;;
  habit_id <-- database_call (add_habit user_id habit_name) ;;
  _ <-- print ("Added habit '" ++ habit_name ++ "'.") ;;
  pure habit_id.

End Prompts.

(** The answers the loop of [daily_checkin] asks again for. *)
Definition not_an_answer (strip lower : string -> string) (line : string) : Prop :=
  is_yes_or_no (lower (strip line)) = false.

(** A process at the prompt: the store of a scenario, the lines to be
    typed, an empty screen. *)
Definition at_prompt (st : state) (lines : list string) (e : environment) : process :=
  {| store := st; tty := {| stdin := lines; stdout := [] |}; env := e |}.

(** A step that changes neither the store nor the lines still to be
    typed, whether it ends normally or not. *)
Definition keeps_store_and_input {A : Type} (m : Proc A) : Prop :=
  forall p r p', m p = (r, p') ->
    store p' = store p /\ stdin (tty p') = stdin (tty p).

(** No key is configured. *)
Definition offline : environment :=
  {| getenv_OPENAI_API_KEY := None;
     chat_openai := fun _ _ => Raise (ProviderError "unreachable");
     random_draw := 3 |}.

End Session.

(** ** Terms of the further statements *)

Module StreakTerms.
Import Database.

(** [today - timedelta(days=i)], the date the scan expects at index [i]. *)
Definition expected_date (ref : date) (i : nat) : result date :=
  match timedelta (Z.of_nat i) with
  | Ok delta => date_sub ref delta
  | Raise e => Raise e
  end.

(** [a] comes no later than [b] in [ORDER BY id]. *)
Definition by_id (a b : habit_row) : Prop := habit_id a <= habit_id b.

End StreakTerms.

(** * Properties *)

(** ** Dates *)

Lemma date_bounds (d : date) : 1 <= toordinal d <= MAXORDINAL.
Proof.
  pose proof (date_in_range d) as H. unfold in_range, MINORDINAL in H.
  apply andb_true_iff in H. destruct H as [Hlo Hhi].
  apply Z.leb_le in Hlo. apply Z.leb_le in Hhi. lia.
Qed.

Lemma date_eq (a b : date) : toordinal a = toordinal b -> a = b.
Proof.
  destruct a as [oa Ha], b as [ob Hb]. simpl. intros E. subst ob.
  f_equal. apply UIP_dec. apply bool_dec.
Qed.

Lemma date_eqb_eq (a b : date) : date_eqb a b = true <-> a = b.
Proof.
  unfold date_eqb. split.
  - intros H. apply date_eq. now apply Z.eqb_eq.
  - intros ->. apply Z.eqb_refl.
Qed.

Lemma date_eqb_neq (a b : date) :
  date_eqb a b = false <-> toordinal a <> toordinal b.
Proof. unfold date_eqb. apply Z.eqb_neq. Qed.

Lemma in_range_iff (o : Z) : in_range o = true <-> 1 <= o <= MAXORDINAL.
Proof.
  unfold in_range, MINORDINAL. rewrite andb_true_iff, !Z.leb_le. tauto.
Qed.

Lemma date_sub_ok (d : date) (delta : Z) :
  1 <= toordinal d - delta <= MAXORDINAL ->
  exists e, date_sub d delta = Ok e /\ toordinal e = toordinal d - delta.
Proof.
  intros Hr. unfold date_sub.
  destruct (in_range_dec (toordinal d - delta)) as [H | H].
  - eexists. split; [reflexivity | reflexivity].
  - apply in_range_iff in Hr. congruence.
Qed.

Lemma date_sub_overflow (d : date) (delta : Z) :
  toordinal d - delta < 1 -> date_sub d delta = Raise OverflowError.
Proof.
  intros Hr. unfold date_sub.
  destruct (in_range_dec (toordinal d - delta)) as [H | H]; [| reflexivity].
  pose proof (proj1 (in_range_iff _) H). lia.
Qed.

Lemma date_sub_zero (d : date) : date_sub d 0 = Ok d.
Proof.
  destruct (date_sub_ok d 0) as [e [He Ho]].
  - pose proof (date_bounds d). lia.
  - rewrite He. f_equal. apply date_eq. lia.
Qed.

Lemma timedelta_ok (n : Z) : Z.abs n <= 999999999 -> timedelta n = Ok n.
Proof.
  intros H. unfold timedelta. apply Z.leb_le in H. now rewrite H.
Qed.

(** ** ORDER BY checkin_date DESC *)

Section OrderBy.
Import Database Terms.

Lemma insert_desc_perm (d : date) (l : list date) :
  Permutation (d :: l) (insert_desc d l).
Proof.
  induction l as [| x xs IH]; simpl.
  - apply Permutation_refl.
  - destruct (toordinal x <=? toordinal d).
    + apply Permutation_refl.
    + eapply perm_trans; [apply perm_swap |]. now apply perm_skip.
Qed.

Lemma order_by_desc_perm (l : list date) : Permutation l (order_by_desc l).
Proof.
  induction l as [| x xs IH]; simpl.
  - constructor.
  - eapply perm_trans; [| apply insert_desc_perm]. now apply perm_skip.
Qed.

Lemma insert_desc_sorted (d : date) (l : list date) :
  StronglySorted desc l -> StronglySorted desc (insert_desc d l).
Proof.
  induction l as [| x xs IH]; simpl; intros Hs.
  - repeat constructor.
  - inversion Hs as [| ? ? Hxs Hall]; subst.
    destruct (toordinal x <=? toordinal d) eqn:E.
    + apply Z.leb_le in E. constructor; [assumption |].
      constructor; [exact E |].
      rewrite Forall_forall in *. intros y Hy. specialize (Hall y Hy).
      unfold desc in *. lia.
    + apply Z.leb_gt in E. constructor; [now apply IH |].
      rewrite Forall_forall in *. intros y Hy.
      apply (Permutation_in _ (Permutation_sym (insert_desc_perm d xs))) in Hy.
      destruct Hy as [<- | Hy]; [unfold desc; lia | now apply Hall].
Qed.

Lemma order_by_desc_sorted (l : list date) : StronglySorted desc (order_by_desc l).
Proof.
  induction l as [| x xs IH]; simpl.
  - constructor.
  - now apply insert_desc_sorted.
Qed.

(** A descending sequence is determined by its elements. *)
Lemma desc_sorted_unique (l1 l2 : list date) :
  StronglySorted desc l1 -> StronglySorted desc l2 ->
  Permutation l1 l2 -> l1 = l2.
Proof.
  revert l2. induction l1 as [| a l1 IH]; intros l2 H1 H2 P.
  - apply Permutation_nil in P. now subst.
  - destruct l2 as [| b l2].
    + apply Permutation_sym, Permutation_nil in P. discriminate.
    + inversion H1 as [| ? ? Hs1 Ha]; subst.
      inversion H2 as [| ? ? Hs2 Hb]; subst.
      assert (E : a = b).
      { apply date_eq.
        assert (Hab : In a (b :: l2)) by (eapply Permutation_in; [exact P | now left]).
        assert (Hba : In b (a :: l1))
          by (eapply Permutation_in; [exact (Permutation_sym P) | now left]).
        rewrite Forall_forall in Ha, Hb.
        destruct Hab as [-> | Hab]; [reflexivity |].
        destruct Hba as [-> | Hba]; [reflexivity |].
        specialize (Ha b Hba). specialize (Hb a Hab). unfold desc in *. lia. }
      subst b. f_equal. apply IH; try assumption.
      now apply Permutation_cons_inv in P.
Qed.

Lemma order_by_desc_invariant (l1 l2 : list date) :
  Permutation l1 l2 -> order_by_desc l1 = order_by_desc l2.
Proof.
  intros P. apply desc_sorted_unique; try apply order_by_desc_sorted.
  eapply perm_trans; [apply Permutation_sym, order_by_desc_perm |].
  eapply perm_trans; [exact P | apply order_by_desc_perm].
Qed.

End OrderBy.

(** ** The completed-dates query *)

Section CompletedDates.
Import Database Terms.

Lemma is_completed_for_iff (hid : Z) (r : progress_row) :
  is_completed_for hid r = true <-> progress_habit_id r = hid /\ completed r = 1.
Proof.
  unfold is_completed_for. now rewrite andb_true_iff, !Z.eqb_eq.
Qed.

Lemma in_completed_rows (d : database) (hid : Z) (day : date) :
  In day (map checkin_date (completed_rows d hid)) <-> completed_on d hid day.
Proof.
  unfold completed_rows, completed_on. rewrite in_map_iff. split.
  - intros [r [Hd Hr]]. apply filter_In in Hr. destruct Hr as [Hin Hc].
    apply is_completed_for_iff in Hc. exists r. tauto.
  - intros [r [Hin [Hh [Hc Hd]]]]. exists r. split; [exact Hd |].
    apply filter_In. split; [exact Hin |]. now apply is_completed_for_iff.
Qed.

Lemma select_completed_dates_perm (d : database) (hid : Z) :
  Permutation (map checkin_date (completed_rows d hid)) (select_completed_dates hid d).
Proof. apply order_by_desc_perm. Qed.

Lemma in_select_completed_dates (d : database) (hid : Z) (day : date) :
  In day (select_completed_dates hid d) <-> completed_on d hid day.
Proof.
  rewrite <- in_completed_rows. split; apply Permutation_in.
  - apply Permutation_sym, select_completed_dates_perm.
  - apply select_completed_dates_perm.
Qed.

Lemma count_date_perm (day : date) (l1 l2 : list date) :
  Permutation l1 l2 -> count_date day l1 = count_date day l2.
Proof.
  unfold count_date. induction 1 as [| x l l' _ IH | x y l | l l' l'' _ IH1 _ IH2]; simpl.
  - reflexivity.
  - destruct (date_eqb day x); simpl; now rewrite IH.
  - destruct (date_eqb day x), (date_eqb day y); reflexivity.
  - now rewrite IH1.
Qed.

Lemma count_date_app (day : date) (l1 l2 : list date) :
  count_date day (l1 ++ l2) = (count_date day l1 + count_date day l2)%nat.
Proof. unfold count_date. now rewrite filter_app, length_app. Qed.

(** C7. The completed-dates query returns, for every habit, exactly the
    dates that carry a row of the habit with [completed = 1] (one entry per
    such row), most recent first; it returns the empty sequence when the
    habit has no completion; and it leaves the database as it found it. *)
Theorem get_completed_dates_exact_descending (hid : Z) (w : world) :
  exists l,
    _get_completed_dates hid w = (Ok l, w)
    /\ (forall day, In day l <-> completed_on (db w) hid day)
    /\ Permutation (map checkin_date (completed_rows (db w) hid)) l
    /\ StronglySorted desc l
    /\ ((forall day, ~ completed_on (db w) hid day) -> l = []).
Proof.
  exists (select_completed_dates hid (db w)).
  split; [reflexivity |].
  split; [intros day; apply in_select_completed_dates |].
  split; [apply select_completed_dates_perm |].
  split; [apply order_by_desc_sorted |].
  intros Hnone.
  destruct (select_completed_dates hid (db w)) as [| x xs] eqn:E; [reflexivity |].
  exfalso. apply (Hnone x). apply in_select_completed_dates. rewrite E. now left.
Qed.

End CompletedDates.

(** ** Check-ins *)

Section Checkins.
Import Database Terms.

Lemma log_checkin_appends (hid : Z) (c : bool) (day : option date) (w : world) :
  log_checkin hid c day w = (Ok tt, after_checkin hid c day w).
Proof. destruct day; reflexivity. Qed.

Lemma completed_rows_after_checkin (hid : Z) (c : bool) (day : option date) (w : world) :
  completed_rows (db (after_checkin hid c day w)) hid
  = completed_rows (db w) hid
    ++ (if c then [mk_progress (progress_seq (db w) + 1) hid (checkin_day day w) 1]
        else []).
Proof.
  unfold completed_rows, after_checkin. simpl. rewrite filter_app. f_equal.
  simpl. unfold is_completed_for. simpl. rewrite Z.eqb_refl.
  destruct c; reflexivity.
Qed.

Lemma count_after_checkin (hid : Z) (c : bool) (day : option date) (w : world) :
  count_date (checkin_day day w)
             (select_completed_dates hid (db (after_checkin hid c day w)))
  = (count_date (checkin_day day w) (select_completed_dates hid (db w))
     + (if c then 1 else 0))%nat.
Proof.
  rewrite <- (count_date_perm _ _ _ (select_completed_dates_perm _ hid)).
  rewrite <- (count_date_perm _ _ _ (select_completed_dates_perm (db w) hid)).
  rewrite completed_rows_after_checkin, map_app, count_date_app. f_equal.
  destruct c; [| reflexivity].
  unfold count_date. simpl.
  now rewrite (proj2 (date_eqb_eq _ _) eq_refl).
Qed.

End Checkins.

Section RepeatedCheckins.
Import Database Terms Scenarios.

(** C10, amended. [log_checkin] appends a row for every habit id that
    SQLite can hold, every date and every flag: it does not fail and does
    not touch an earlier row, also when rows of the same habit and date are
    already there.  [n] check-ins of one day leave [n] new rows behind the
    old ones; the completed-dates query afterwards lists that day [n] more
    times than before when the check-ins were completed ones, and exactly
    as often as before when they were misses, whose rows it does not
    return. *)
Theorem repeat_checkin_accumulates
    (n : nat) (hid : Z) (c : bool) (day : option date) (w : world) :
  sqlite_integer hid ->
  exists w' new l l',
    repeat_checkin n hid c day w = (Ok tt, w')
    /\ progress (db w') = progress (db w) ++ new
    /\ List.length new = n
    /\ Forall (is_checkin_of hid (checkin_day day w) c) new
    /\ today w' = today w
    /\ _get_completed_dates hid w = (Ok l, w)
    /\ _get_completed_dates hid w' = (Ok l', w')
    /\ count_date (checkin_day day w) l'
       = (count_date (checkin_day day w) l + (if c then n else 0))%nat.
Proof.
  intros _. revert w. induction n as [| k IH]; intros w.
  - exists w, [], (select_completed_dates hid (db w)), (select_completed_dates hid (db w)).
    simpl. rewrite app_nil_r.
    repeat split; try reflexivity; try constructor.
    destruct c; now rewrite Nat.add_0_r.
  - destruct (IH (after_checkin hid c day w))
      as (w' & new & l & l' & Hrun & Hrows & Hlen & Hall & Hclock & Hl & Hl' & Hcount).
    assert (Hday : checkin_day day (after_checkin hid c day w) = checkin_day day w)
      by (destruct day; reflexivity).
    rewrite Hday in *.
    exists w',
      (mk_progress (progress_seq (db w) + 1) hid (checkin_day day w) (Z.b2z c) :: new),
      (select_completed_dates hid (db w)), l'.
    split.
    { simpl. unfold bind. rewrite log_checkin_appends. exact Hrun. }
    split.
    { rewrite Hrows. simpl. now rewrite <- app_assoc. }
    split; [simpl; now rewrite Hlen |].
    split.
    { constructor; [| exact Hall]. repeat split. }
    split; [rewrite Hclock; reflexivity |].
    split; [reflexivity |].
    split; [exact Hl' |].
    assert (El : l = select_completed_dates hid (db (after_checkin hid c day w)))
      by (unfold _get_completed_dates in Hl; congruence).
    rewrite Hcount, El, count_after_checkin. destruct c; lia.
Qed.

Lemma repeat_checkin_accumulates_witness :
  exists w' new l l',
    repeat_checkin 2 1 true None (world_of two_days jul29) = (Ok tt, w')
    /\ progress (db w') = progress (db (world_of two_days jul29)) ++ new
    /\ List.length new = 2%nat
    /\ Forall (is_checkin_of 1 (checkin_day None (world_of two_days jul29)) true) new
    /\ today w' = today (world_of two_days jul29)
    /\ _get_completed_dates 1 (world_of two_days jul29)
       = (Ok l, world_of two_days jul29)
    /\ _get_completed_dates 1 w' = (Ok l', w')
    /\ count_date (checkin_day None (world_of two_days jul29)) l'
       = (count_date (checkin_day None (world_of two_days jul29)) l
          + (if true then 2 else 0))%nat.
Proof.
  apply (repeat_checkin_accumulates 2 1 true None (world_of two_days jul29)).
  unfold sqlite_integer. lia.
Defined.

(** C10 as stated fails for misses: two check-ins with [completed = False]
    on one day leave two more rows, and the completed-dates query returns
    neither of them. *)
Lemma checkin_misses_are_not_listed :
  let w := world_of two_days jul30 in
  let w' := snd (repeat_checkin 2 1 false None w) in
  fst (repeat_checkin 2 1 false None w) = Ok tt
  /\ progress (db w')
     = progress (db w) ++ [mk_progress 3 1 jul30 0; mk_progress 4 1 jul30 0]
  /\ _get_completed_dates 1 w' = (Ok [jul29; jul28], w')
  /\ count_date jul30 [jul29; jul28] = 0%nat.
Proof. cbv zeta. repeat split. Qed.

End RepeatedCheckins.

(** ** The streak *)

Section Streak.
Import Database Terms.

Lemma get_streak_eq (hid : Z) (w : world) :
  get_streak hid w
  = (streak_loop (today w) 0 0 (select_completed_dates hid (db w)), w).
Proof.
  unfold get_streak, bind, _get_completed_dates.
  destruct (select_completed_dates hid (db w)); reflexivity.
Qed.

(** One turn of the loop on a record that is not later than the expected
    date. *)
Lemma streak_loop_cons (ref : date) (i : nat) (s : Z) (x : date) (rest : list date) :
  toordinal x <= toordinal ref - Z.of_nat i ->
  streak_loop ref i s (x :: rest)
  = if toordinal x =? toordinal ref - Z.of_nat i
    then streak_loop ref (S i) (s + 1) rest
    else Ok s.
Proof.
  intros Hle. pose proof (date_bounds x) as Hx. pose proof (date_bounds ref) as Hr.
  unfold MAXORDINAL in *.
  simpl streak_loop. rewrite timedelta_ok by lia.
  destruct (date_sub_ok ref (Z.of_nat i)) as [e [He Ho]]; [unfold MAXORDINAL; lia |].
  rewrite He. unfold date_eqb. now rewrite Ho.
Qed.

(** The first record decides whether the loop counts anything. *)
Lemma streak_loop_first_differs (ref x : date) (rest : list date) :
  x <> ref -> streak_loop ref 0 0 (x :: rest) = Ok 0.
Proof.
  intros Hne. simpl. rewrite date_sub_zero.
  destruct (date_eqb x ref) eqn:E; [| reflexivity].
  apply date_eqb_eq in E. contradiction.
Qed.

Lemma streak_loop_run (ref : date) (m : nat) :
  forall (i : nat) (s : Z) (l : list date),
    StronglySorted desc l ->
    NoDup l ->
    (forall d, In d l -> toordinal d <= toordinal ref - Z.of_nat i) ->
    (forall k, (k < m)%nat ->
       exists d, In d l /\ toordinal d = toordinal ref - Z.of_nat i - Z.of_nat k) ->
    (forall d, In d l -> toordinal d <> toordinal ref - Z.of_nat i - Z.of_nat m) ->
    streak_loop ref i s l = Ok (s + Z.of_nat m).
Proof.
  induction m as [| m IH]; intros i s l Hs Hnd Hle Hin Hout.
  - destruct l as [| x rest]; simpl Z.of_nat; rewrite Z.add_0_r; [reflexivity |].
    rewrite streak_loop_cons by (apply Hle; now left).
    specialize (Hout x (or_introl eq_refl)). simpl Z.of_nat in Hout.
    destruct (Z.eqb_spec (toordinal x) (toordinal ref - Z.of_nat i)); [lia | reflexivity].
  - destruct (Hin 0%nat) as [d0 [Hd0 Ed0]]; [lia |].
    destruct l as [| x rest]; [contradiction |].
    inversion Hs as [| ? ? Hs' Hall]; subst.
    inversion Hnd as [| ? ? Hnotin Hnd']; subst.
    rewrite Forall_forall in Hall.
    assert (Hx : toordinal x = toordinal ref - Z.of_nat i).
    { pose proof (Hle x (or_introl eq_refl)) as Hxle.
      destruct Hd0 as [-> | Hd0]; [simpl in Ed0; lia |].
      specialize (Hall d0 Hd0). unfold desc in Hall. simpl in Ed0. lia. }
    rewrite streak_loop_cons by lia.
    rewrite (proj2 (Z.eqb_eq _ _) Hx).
    assert (Hlt : forall d, In d rest -> toordinal d < toordinal x).
    { intros d Hd. specialize (Hall d Hd). unfold desc in Hall.
      assert (toordinal d <> toordinal x)
        by (intros E; apply date_eq in E; subst; contradiction).
      lia. }
    rewrite (IH (S i) (s + 1) rest); try assumption.
    + f_equal. lia.
    + intros d Hd. specialize (Hlt d Hd). lia.
    + intros k Hk. destruct (Hin (S k)) as [d [Hd Ed]]; [lia |].
      exists d. destruct Hd as [<- | Hd]; [lia |]. split; [exact Hd | lia].
    + intros d Hd. specialize (Hout d (or_intror Hd)). lia.
Qed.

(** C6. A habit without any completed record has streak 0, whatever the
    stored rows of other habits, its own recorded misses, and whatever date
    the streak is evaluated at. *)
Theorem get_streak_no_completions
    (d : database) (ref : date) (hid : Z) :
  (forall day, ~ completed_on d hid day) ->
  get_streak hid {| db := d; today := ref |} = (Ok 0, {| db := d; today := ref |}).
Proof.
  intros Hnone. rewrite get_streak_eq. simpl.
  destruct (select_completed_dates hid d) as [| x xs] eqn:E; [reflexivity |].
  exfalso. apply (Hnone x). apply in_select_completed_dates. rewrite E. now left.
Qed.

(** C5. When no completed record of the habit is dated the reference date
    (the date the clock shows), the streak is 0, however many earlier days
    were completed. *)
Theorem get_streak_zero_unless_completed_today (hid : Z) (w : world) :
  ~ completed_on (db w) hid (today w) ->
  get_streak hid w = (Ok 0, w).
Proof.
  intros Hnot. rewrite get_streak_eq. f_equal.
  destruct (select_completed_dates hid (db w)) as [| x xs] eqn:E; [reflexivity |].
  apply streak_loop_first_differs. intros ->.
  apply Hnot. apply in_select_completed_dates. rewrite E. now left.
Qed.

End Streak.

Section StreakOfHistory.
Import Database Terms Scenarios.

Lemma select_completed_dates_invariant (hid : Z) (d1 d2 : database) :
  Permutation (map checkin_date (completed_rows d1 hid))
              (map checkin_date (completed_rows d2 hid)) ->
  select_completed_dates hid d1 = select_completed_dates hid d2.
Proof. intros P. now apply order_by_desc_invariant. Qed.

Lemma filter_perm {A : Type} (p : A -> bool) (l1 l2 : list A) :
  Permutation l1 l2 -> Permutation (filter p l1) (filter p l2).
Proof.
  induction 1 as [| x l l' _ IH | x y l | l l' l'' _ IH1 _ IH2]; simpl.
  - constructor.
  - destruct (p x); [now apply perm_skip | exact IH].
  - destruct (p x), (p y); try apply Permutation_refl. apply perm_swap.
  - eapply perm_trans; eassumption.
Qed.

Lemma completed_dates_of_checkins (hid : Z) (rows : list progress_row) :
  map checkin_date (filter (is_completed_for hid) rows)
  = map (fun c => snd (fst c)) (filter (is_completed_checkin hid) (map checkin_of rows)).
Proof.
  induction rows as [| r rows IH]; simpl; [reflexivity |].
  unfold is_completed_for at 1.
  destruct ((progress_habit_id r =? hid) && (completed r =? 1)); simpl; now rewrite IH.
Qed.

Lemma completed_rows_perm (hid : Z) (d1 d2 : database) :
  Permutation (map checkin_of (progress d1)) (map checkin_of (progress d2)) ->
  Permutation (map checkin_date (completed_rows d1 hid))
              (map checkin_date (completed_rows d2 hid)).
Proof.
  intros P. unfold completed_rows. rewrite !completed_dates_of_checkins.
  apply Permutation_map. now apply filter_perm.
Qed.

(** X1 (the part of C1 the code keeps).  In a history where no two
    completed rows of the habit share a date and none is dated after the
    reference date, completed records on today, today-1, ..., today-(n-1)
    and none on today-n give the streak n. *)
Theorem get_streak_consecutive_run (n : nat) (hid : Z) (w : world) :
  NoDup (map checkin_date (completed_rows (db w) hid)) ->
  (forall day, completed_on (db w) hid day -> toordinal day <= toordinal (today w)) ->
  (forall k, (k < n)%nat ->
     exists day, completed_on (db w) hid day
                 /\ toordinal day = days_before (today w) (Z.of_nat k)) ->
  (forall day, completed_on (db w) hid day ->
     toordinal day <> days_before (today w) (Z.of_nat n)) ->
  get_streak hid w = (Ok (Z.of_nat n), w).
Proof.
  unfold days_before. intros Hnd Hpast Hrun Hgap.
  rewrite get_streak_eq. f_equal.
  change (Ok (Z.of_nat n)) with (Ok (0 + Z.of_nat n)).
  apply streak_loop_run.
  - apply order_by_desc_sorted.
  - eapply Permutation_NoDup; [apply select_completed_dates_perm | exact Hnd].
  - intros d Hd. apply in_select_completed_dates in Hd.
    specialize (Hpast d Hd). simpl. lia.
  - intros k Hk. destruct (Hrun k Hk) as [day [Hday Eday]].
    exists day. split; [now apply in_select_completed_dates | simpl; lia].
  - intros d Hd. apply in_select_completed_dates in Hd.
    specialize (Hgap d Hd). simpl. lia.
Qed.

Lemma get_streak_consecutive_run_witness :
  get_streak 1 (world_of two_days jul29) = (Ok 2, world_of two_days jul29).
Proof.
  apply (get_streak_consecutive_run 2 1 (world_of two_days jul29)).
  - simpl. repeat constructor; simpl; intuition discriminate.
  - intros day (r & Hin & _ & _ & <-). simpl in Hin.
    destruct Hin as [<- | [<- | []]]; simpl; lia.
  - intros k Hk.
    assert (Hc : k = 0%nat \/ k = 1%nat) by lia.
    destruct Hc as [-> | ->].
    + exists jul29. split; [| reflexivity].
      exists (mk_progress 2 1 jul29 1). simpl. intuition.
    + exists jul28. split; [| reflexivity].
      exists (mk_progress 1 1 jul28 1). simpl. intuition.
  - intros day (r & Hin & _ & _ & <-). simpl in Hin.
    destruct Hin as [<- | [<- | []]]; simpl; unfold days_before; simpl; lia.
Defined.

(** X2 (the part of C4 the code keeps).  Two stores that hold the same
    check-ins, in whatever order they were inserted, give the same streak
    on the same day. *)
Theorem get_streak_insertion_order (hid : Z) (w1 w2 : world) :
  Permutation (map checkin_of (progress (db w1))) (map checkin_of (progress (db w2))) ->
  today w1 = today w2 ->
  fst (get_streak hid w1) = fst (get_streak hid w2).
Proof.
  intros P Hclock. rewrite !get_streak_eq. simpl. rewrite Hclock.
  f_equal. apply select_completed_dates_invariant. now apply completed_rows_perm.
Qed.

Lemma get_streak_insertion_order_witness :
  fst (get_streak 1 (world_of two_days jul29))
  = fst (get_streak 1 (world_of two_days_reversed jul29)).
Proof.
  apply (get_streak_insertion_order 1 (world_of two_days jul29)
           (world_of two_days_reversed jul29)).
  - simpl. apply perm_swap.
  - reflexivity.
Defined.

End StreakOfHistory.

(** ** The claims on the streak, run on histories *)

Section StreakClaims.
Import Database Terms Scenarios.

Lemma get_streak_no_completions_witness :
  get_streak 1 (world_of [mk_progress 1 1 jul28 0; mk_progress 2 2 jul29 1] jul29)
  = (Ok 0, world_of [mk_progress 1 1 jul28 0; mk_progress 2 2 jul29 1] jul29).
Proof.
  apply (get_streak_no_completions
           (db (world_of [mk_progress 1 1 jul28 0; mk_progress 2 2 jul29 1] jul29))
           jul29 1).
  intros day (r & Hin & Hh & Hc & _). simpl in Hin.
  destruct Hin as [<- | [<- | []]]; simpl in *; discriminate.
Defined.

Lemma get_streak_zero_unless_completed_today_witness :
  get_streak 1 (world_of with_gap jul28) = (Ok 0, world_of with_gap jul28).
Proof.
  apply (get_streak_zero_unless_completed_today 1 (world_of with_gap jul28)).
  intros (r & Hin & Hh & Hc & Hd). simpl in Hin, Hd.
  destruct Hin as [<- | [<- | [<- | []]]]; simpl in *; discriminate.
Defined.

(** C1, where the code departs from it.  The habit is completed on the
    reference date and on the day before, and not two days before, so the
    claim asks for a streak of 2; the check-in of the reference date was
    recorded twice, the query lists that date twice, and the scan stops at
    the second entry: the code returns 1. *)
Example get_streak_repeated_checkin_cuts_run :
  let w := world_of two_days_twice jul29 in
  completed_on (db w) 1 jul29
  /\ completed_on (db w) 1 jul28
  /\ (forall day, completed_on (db w) 1 day -> toordinal day <> days_before jul29 2)
  /\ fst (_get_completed_dates 1 w) = Ok [jul29; jul29; jul28]
  /\ get_streak 1 w = (Ok 1, w).
Proof.
  simpl. split; [| split; [| split; [| split]]].
  - exists (mk_progress 2 1 jul29 1). simpl. intuition.
  - exists (mk_progress 1 1 jul28 1). simpl. intuition.
  - intros day (r & Hin & _ & _ & <-). simpl in Hin.
    destruct Hin as [<- | [<- | [<- | []]]]; simpl; unfold days_before; simpl; lia.
  - reflexivity.
  - reflexivity.
Qed.

(** The gap of C1 on a history with one row per day: completed on the
    reference date and two days before, a miss recorded in between. *)
Example get_streak_stops_at_gap :
  get_streak 1 (world_of with_gap jul29) = (Ok 1, world_of with_gap jul29).
Proof. reflexivity. Qed.

(** C4, where the code departs from it.  Two histories mark the same two
    calendar dates as completed and are read on the same day; in the second
    one date carries two completed rows, and the streaks differ (2 and 1). *)
Example get_streak_same_days_different_streaks :
  let w1 := world_of two_days jul29 in
  let w2 := world_of two_days_twice jul29 in
  (forall day, completed_on (db w1) 1 day <-> completed_on (db w2) 1 day)
  /\ today w1 = today w2
  /\ fst (get_streak 1 w1) = Ok 2
  /\ fst (get_streak 1 w2) = Ok 1.
Proof.
  simpl. split; [| split; [| split]]; try reflexivity.
  intros day. split; intros (r & Hin & Hh & Hc & Hd); simpl in Hin.
  - destruct Hin as [<- | [<- | []]]; subst day.
    + exists (mk_progress 1 1 jul28 1). simpl. intuition.
    + exists (mk_progress 2 1 jul29 1). simpl. intuition.
  - destruct Hin as [<- | [<- | [<- | []]]]; subst day.
    + exists (mk_progress 1 1 jul28 1). simpl. intuition.
    + exists (mk_progress 2 1 jul29 1). simpl. intuition.
    + exists (mk_progress 2 1 jul29 1). simpl. intuition.
Qed.

(** C2 as stated fails: with the stored data and the argument unchanged,
    the result follows the date the clock shows. *)
Lemma get_streak_follows_the_clock :
  db (world_of two_days jul29) = db (world_of two_days jul30)
  /\ fst (get_streak 1 (world_of two_days jul29)) = Ok 2
  /\ fst (get_streak 1 (world_of two_days jul30)) = Ok 0.
Proof. repeat split. Qed.

(** C2, amended.  [get_streak] takes the habit id only and reads the
    reference date from the clock; its result is a function of the habit's
    completed dates in the store and of the date the clock shows, and of
    nothing else; it writes nothing, so a second call with the history
    unchanged and the clock on the same date returns the same result. *)
Theorem get_streak_function_of_history_and_clock (hid : Z) (w1 w2 : world) :
  today w1 = today w2 ->
  Permutation (map checkin_date (completed_rows (db w1) hid))
              (map checkin_date (completed_rows (db w2) hid)) ->
  fst (get_streak hid w1) = fst (get_streak hid w2)
  /\ snd (get_streak hid w1) = w1
  /\ get_streak hid (snd (get_streak hid w1)) = get_streak hid w1.
Proof.
  intros Hclock P.
  assert (Hsnd : snd (get_streak hid w1) = w1) by now rewrite get_streak_eq.
  split; [| split].
  - rewrite !get_streak_eq. simpl. rewrite Hclock. f_equal.
    now apply select_completed_dates_invariant.
  - exact Hsnd.
  - now rewrite Hsnd.
Qed.

Lemma get_streak_function_of_history_and_clock_witness :
  fst (get_streak 1 (world_of two_days jul29))
  = fst (get_streak 1 (world_of (mk_progress 7 2 jul30 1 :: two_days_reversed) jul29))
  /\ snd (get_streak 1 (world_of two_days jul29)) = world_of two_days jul29
  /\ get_streak 1 (snd (get_streak 1 (world_of two_days jul29)))
     = get_streak 1 (world_of two_days jul29).
Proof.
  apply (get_streak_function_of_history_and_clock 1 (world_of two_days jul29)
           (world_of (mk_progress 7 2 jul30 1 :: two_days_reversed) jul29)).
  - reflexivity.
  - simpl. apply perm_swap.
Defined.

(** C3 as stated fails: habit 99 does not exist, and both queries answer
    with their defaults and the check-in is stored. *)
Lemma unknown_habit_is_not_rejected :
  let w := world_of two_days jul29 in
  habit_exists 99 (db w) = false
  /\ _get_completed_dates 99 w = (Ok [], w)
  /\ get_streak 99 w = (Ok 0, w)
  /\ log_checkin 99 true None w = (Ok tt, after_checkin 99 true None w).
Proof. simpl. repeat split. Qed.

(** C3, amended.  The queries do not look the habit up: for a habit id that
    SQLite can hold, that references no habit and under which no row is
    stored, the completed-dates query returns the empty sequence and the
    streak is 0, both without an error and without a write. *)
Theorem queries_default_for_unknown_habit (hid : Z) (w : world) :
  sqlite_integer hid ->
  habit_exists hid (db w) = false ->
  (forall r, In r (progress (db w)) -> progress_habit_id r <> hid) ->
  _get_completed_dates hid w = (Ok [], w) /\ get_streak hid w = (Ok 0, w).
Proof.
  intros _ _ Hrows.
  assert (E : select_completed_dates hid (db w) = []).
  { destruct (select_completed_dates hid (db w)) as [| x xs] eqn:E; [reflexivity |].
    exfalso. assert (Hx : completed_on (db w) hid x)
      by (apply in_select_completed_dates; rewrite E; now left).
    destruct Hx as (r & Hin & Hh & _). exact (Hrows r Hin Hh). }
  split.
  - unfold _get_completed_dates. now rewrite E.
  - rewrite get_streak_eq, E. reflexivity.
Qed.

Lemma queries_default_for_unknown_habit_witness :
  _get_completed_dates 99 (world_of two_days jul29) = (Ok [], world_of two_days jul29)
  /\ get_streak 99 (world_of two_days jul29) = (Ok 0, world_of two_days jul29).
Proof.
  apply (queries_default_for_unknown_habit 99 (world_of two_days jul29)).
  - unfold sqlite_integer. lia.
  - reflexivity.
  - intros r Hin. simpl in Hin.
    destruct Hin as [<- | [<- | []]]; simpl; discriminate.
Defined.

End StreakClaims.

(** ** Milestones and the motivation message *)

Section Messages.
Import Utils Chatbot Scenarios.
Open Scope string_scope.

(** C8. The milestone message is a non-empty celebration exactly for the
    streaks 3, 7 and 10, and the empty string for every other streak. *)
Theorem get_milestone_message_milestones (streak : Z) :
  ((streak = 3 \/ streak = 7 \/ streak = 10)
     <-> get_milestone_message streak <> EmptyString)
  /\ (~ (streak = 3 \/ streak = 7 \/ streak = 10)
        <-> get_milestone_message streak = EmptyString)
  /\ get_milestone_message 3 = "🎉 You've hit a 3-day streak! Amazing discipline!"
  /\ get_milestone_message 7 = "🎉 You've hit a 7-day streak! Amazing discipline!"
  /\ get_milestone_message 10 = "🎉 You've hit a 10-day streak! Amazing discipline!".
Proof.
  assert (Hm : in_milestones streak = true <-> (streak = 3 \/ streak = 7 \/ streak = 10)).
  { unfold in_milestones. simpl. rewrite !orb_true_iff, !Z.eqb_eq.
    intuition discriminate. }
  unfold get_milestone_message.
  repeat split; try reflexivity.
  - intros H. apply Hm in H. rewrite H. simpl. discriminate.
  - intros H. apply Hm. destruct (in_milestones streak); [reflexivity | congruence].
  - intros H. destruct (in_milestones streak) eqn:E; [| reflexivity].
    exfalso. apply H. now apply Hm.
  - intros H Hin. apply Hm in Hin. rewrite Hin in H. simpl in H. discriminate.
Qed.

Lemma get_random_quote_total (r : nat) :
  exists quote, get_random_quote r = Ok quote /\ In quote QUOTES.
Proof.
  unfold get_random_quote, random_choice.
  destruct (nth_error QUOTES (r mod List.length QUOTES)) as [q |] eqn:E.
  - exists q. split; [reflexivity |]. eapply nth_error_In. exact E.
  - exfalso. apply nth_error_None in E.
    assert (r mod List.length QUOTES < List.length QUOTES)%nat
      by (apply Nat.mod_upper_bound; discriminate).
    lia.
Qed.

(** C9. Whatever the user, habit and streak: when the API key is missing
    (unset or empty) or the call to the provider raises an exception, the
    motivation message is one of the canned quotes, returned as a value; no
    error reaches the caller. *)
Theorem get_motivational_message_falls_back
    (strip : string -> string) (env : environment)
    (user_name habit_name : string) (streak : Z) :
  (api_key_missing (getenv_OPENAI_API_KEY env) = true
   \/ exists exc, is_Exception exc = true
                  /\ chat_openai env system_prompt
                       (human_prompt user_name habit_name streak) = Raise exc) ->
  exists quote,
    get_motivational_message strip env user_name habit_name streak = Ok quote
    /\ In quote QUOTES.
Proof.
  intros H. unfold get_motivational_message.
  destruct (api_key_missing (getenv_OPENAI_API_KEY env)) eqn:K.
  - apply get_random_quote_total.
  - destruct H as [H | [exc [Hexc Hcall]]]; [discriminate |].
    rewrite Hcall, Hexc. apply get_random_quote_total.
Qed.

Lemma get_motivational_message_falls_back_witness :
  exists quote,
    get_motivational_message (fun s => s) failing_provider "Adi" "Read 10 pages" 2
    = Ok quote
    /\ In quote QUOTES.
Proof.
  apply (get_motivational_message_falls_back
           (fun s => s) failing_provider "Adi" "Read 10 pages" 2).
  right. exists (ProviderError "connection refused"). split; reflexivity.
Defined.

End Messages.

(** ** More on the streak: what a result says about the history *)

Section StreakSoundness.
Import Database Terms Scenarios EdgeScenarios.

Lemma timedelta_inv (n delta : Z) : timedelta n = Ok delta -> delta = n.
Proof.
  unfold timedelta. destruct (Z.abs n <=? 999999999); congruence.
Qed.

Lemma timedelta_raises (n : Z) (e : exception) :
  timedelta n = Raise e -> e = OverflowError /\ 999999999 < Z.abs n.
Proof.
  unfold timedelta. destruct (Z.leb_spec (Z.abs n) 999999999); [discriminate |].
  intros E. injection E as <-. split; [reflexivity | assumption].
Qed.

Lemma date_sub_inv (d e : date) (delta : Z) :
  date_sub d delta = Ok e -> toordinal e = toordinal d - delta.
Proof.
  unfold date_sub. destruct (in_range_dec (toordinal d - delta)); [| discriminate].
  intros E. injection E as <-. reflexivity.
Qed.

Lemma date_sub_raises (d : date) (delta : Z) (e : exception) :
  date_sub d delta = Raise e ->
  e = OverflowError /\ ~ (1 <= toordinal d - delta <= MAXORDINAL).
Proof.
  unfold date_sub. destruct (in_range_dec (toordinal d - delta)) as [H | H];
    [discriminate |].
  intros E. injection E as <-. split; [reflexivity |].
  intros Hr. apply in_range_iff in Hr. congruence.
Qed.

Lemma streak_loop_sound (ref : date) (l : list date) :
  forall (i : nat) (s n : Z),
    streak_loop ref i s l = Ok n ->
    s <= n <= s + Z.of_nat (List.length l)
    /\ forall k, 0 <= k < n - s ->
         exists d, In d l /\ toordinal d = toordinal ref - (Z.of_nat i + k).
Proof.
  induction l as [| x rest IH]; intros i s n Hrun.
  - simpl in Hrun. injection Hrun as <-. simpl. split; [lia |]. intros k Hk. lia.
  - simpl streak_loop in Hrun.
    destruct (timedelta (Z.of_nat i)) as [delta |] eqn:Et; [| discriminate].
    apply timedelta_inv in Et. subst delta.
    destruct (date_sub ref (Z.of_nat i)) as [expected |] eqn:Es; [| discriminate].
    apply date_sub_inv in Es.
    destruct (date_eqb x expected) eqn:Ex.
    + apply date_eqb_eq in Ex. subst expected.
      destruct (IH (S i) (s + 1) n Hrun) as [Hb Hdays].
      change (List.length (x :: rest)) with (S (List.length rest)).
      split; [lia |].
      intros k Hk. destruct (Z.eq_dec k 0) as [-> | Hk0].
      * exists x. split; [now left | lia].
      * destruct (Hdays (k - 1)) as [d [Hd Ed]]; [lia |].
        exists d. split; [now right | lia].
    + injection Hrun as <-.
      change (List.length (x :: rest)) with (S (List.length rest)).
      split; [lia |]. intros k Hk. lia.
Qed.

Lemma select_completed_dates_length (hid : Z) (d : database) :
  List.length (select_completed_dates hid d) = List.length (completed_rows d hid).
Proof.
  rewrite <- (Permutation_length (select_completed_dates_perm d hid)).
  apply length_map.
Qed.

(** X3.  A streak is never over-counted: when [get_streak] returns [n],
    then [n] is between 0 and the number of completed rows of the habit,
    each of the [n] days today, today-1, ..., today-(n-1) carries a
    completed record of the habit, and nothing was written. *)
Theorem get_streak_counts_completed_days (hid n : Z) (w w' : world) :
  get_streak hid w = (Ok n, w') ->
  w' = w
  /\ 0 <= n <= Z.of_nat (List.length (completed_rows (db w) hid))
  /\ forall k, 0 <= k < n ->
       exists day, completed_on (db w) hid day
                   /\ toordinal day = days_before (today w) k.
Proof.
  rewrite get_streak_eq. intros E. injection E as Hrun <-.
  destruct (streak_loop_sound _ _ _ _ _ Hrun) as [Hb Hdays].
  rewrite select_completed_dates_length in Hb.
  split; [reflexivity |]. split; [lia |].
  intros k Hk. destruct (Hdays k) as [d [Hd Ed]]; [lia |].
  exists d. split; [now apply in_select_completed_dates |].
  unfold days_before. simpl in Ed. lia.
Qed.

Lemma get_streak_counts_completed_days_witness :
  world_of two_days_twice jul29 = world_of two_days_twice jul29
  /\ 0 <= 1 <= Z.of_nat (List.length (completed_rows (db (world_of two_days_twice jul29)) 1))
  /\ forall k, 0 <= k < 1 ->
       exists day, completed_on (db (world_of two_days_twice jul29)) 1 day
                   /\ toordinal day = days_before (today (world_of two_days_twice jul29)) k.
Proof.
  apply (get_streak_counts_completed_days 1 1 (world_of two_days_twice jul29)
           (world_of two_days_twice jul29)).
  reflexivity.
Defined.

Lemma streak_loop_returns (ref : date) (l : list date) :
  forall (i : nat) (s : Z),
    Z.of_nat i + Z.of_nat (List.length l) <= toordinal ref ->
    exists n, streak_loop ref i s l = Ok n.
Proof.
  induction l as [| x rest IH]; intros i s Hlen.
  - exists s. reflexivity.
  - change (List.length (x :: rest)) with (S (List.length rest)) in Hlen.
    pose proof (date_bounds ref) as Hr. unfold MAXORDINAL in Hr.
    simpl streak_loop. rewrite timedelta_ok by lia.
    destruct (date_sub_ok ref (Z.of_nat i)) as [e [He _]]; [unfold MAXORDINAL; lia |].
    rewrite He. destruct (date_eqb x e).
    + apply IH. lia.
    + exists s. reflexivity.
Qed.

(** X4.  For a habit id that SQLite can hold, [get_streak] returns a
    number, and raises nothing, whenever the habit has no more completed
    rows than there are days from 0001-01-01 to the date the clock
    shows. *)
Theorem get_streak_returns (hid : Z) (w : world) :
  sqlite_integer hid ->
  Z.of_nat (List.length (completed_rows (db w) hid)) <= toordinal (today w) ->
  exists n, get_streak hid w = (Ok n, w).
Proof.
  intros _ Hlen. rewrite get_streak_eq.
  destruct (streak_loop_returns (today w) (select_completed_dates hid (db w)) 0 0)
    as [n Hn].
  - rewrite select_completed_dates_length. simpl. lia.
  - exists n. now rewrite Hn.
Qed.

Lemma get_streak_returns_witness :
  exists n, get_streak 1 (world_of two_days_twice jul29)
            = (Ok n, world_of two_days_twice jul29).
Proof.
  apply (get_streak_returns 1 (world_of two_days_twice jul29)).
  - unfold sqlite_integer. lia.
  - simpl. unfold jul29. simpl. lia.
Defined.

(** The bound of X4 cannot be dropped: with three completed rows on the
    second day of the calendar the scan reaches the day before 0001-01-01
    and the date subtraction overflows. *)
Example get_streak_overflows_at_dawn :
  Z.of_nat (List.length (completed_rows (db dawn) 1)) = toordinal (today dawn) + 1
  /\ get_streak 1 dawn = (Raise OverflowError, dawn).
Proof. split; reflexivity. Qed.

End StreakSoundness.

(** ** How a check-in moves the streak *)

Section CheckinAndStreak.
Import Database Terms Scenarios EdgeScenarios StreakTerms.

Lemma completed_rows_after_any_checkin
    (hid hid' : Z) (c : bool) (day : option date) (w : world) :
  completed_rows (db (after_checkin hid c day w)) hid'
  = completed_rows (db w) hid'
    ++ (if (hid =? hid') && c
        then [mk_progress (progress_seq (db w) + 1) hid (checkin_day day w) 1]
        else []).
Proof.
  unfold completed_rows, after_checkin. simpl. rewrite filter_app. f_equal.
  simpl. unfold is_completed_for. simpl.
  destruct (hid =? hid'), c; reflexivity.
Qed.

(** X5.  A check-in leaves every other habit alone, and a recorded miss
    leaves every habit alone: the completed dates and the streak of a habit
    change only through a completed check-in of that very habit. *)
Theorem log_checkin_frame
    (hid hid' : Z) (c : bool) (day : option date) (w : world) :
  c = false \/ hid' <> hid ->
  _get_completed_dates hid' (snd (log_checkin hid c day w))
  = (fst (_get_completed_dates hid' w), snd (log_checkin hid c day w))
  /\ fst (get_streak hid' (snd (log_checkin hid c day w))) = fst (get_streak hid' w).
Proof.
  intros H. rewrite log_checkin_appends. cbn [snd].
  assert (E : select_completed_dates hid' (db (after_checkin hid c day w))
              = select_completed_dates hid' (db w)).
  { apply select_completed_dates_invariant.
    rewrite completed_rows_after_any_checkin.
    assert (Hb : (hid =? hid') && c = false).
    { destruct H as [-> | Hne]; [apply andb_false_r |].
      apply andb_false_intro1. apply Z.eqb_neq. congruence. }
    rewrite Hb, app_nil_r. apply Permutation_refl. }
  split.
  - unfold _get_completed_dates. cbn [fst]. now rewrite E.
  - rewrite !get_streak_eq. cbn [fst]. rewrite E. reflexivity.
Qed.

Lemma log_checkin_frame_witness :
  _get_completed_dates 1 (snd (log_checkin 1 false None (world_of two_days jul30)))
  = (fst (_get_completed_dates 1 (world_of two_days jul30)),
     snd (log_checkin 1 false None (world_of two_days jul30)))
  /\ fst (get_streak 1 (snd (log_checkin 1 false None (world_of two_days jul30))))
     = fst (get_streak 1 (world_of two_days jul30)).
Proof.
  apply (log_checkin_frame 1 1 false None (world_of two_days jul30)).
  left. reflexivity.
Defined.

Lemma insert_desc_head (d : date) (l : list date) :
  (forall x, In x l -> toordinal x <= toordinal d) ->
  insert_desc d l = d :: l.
Proof.
  intros H. destruct l as [| x xs]; [reflexivity |]. simpl.
  specialize (H x (or_introl eq_refl)). apply Z.leb_le in H. now rewrite H.
Qed.

(** The completed dates after a completed check-in that is not earlier
    than any completed date so far. *)
Lemma select_completed_dates_after_latest
    (hid : Z) (day : option date) (w : world) :
  (forall d, completed_on (db w) hid d -> toordinal d <= toordinal (checkin_day day w)) ->
  select_completed_dates hid (db (after_checkin hid true day w))
  = checkin_day day w :: select_completed_dates hid (db w).
Proof.
  intros Hle.
  transitivity (order_by_desc
                  (checkin_day day w :: map checkin_date (completed_rows (db w) hid))).
  - apply order_by_desc_invariant.
    fold (completed_rows (db (after_checkin hid true day w)) hid).
    rewrite completed_rows_after_checkin, map_app. simpl.
    apply Permutation_sym, Permutation_cons_append.
  - simpl. apply insert_desc_head. intros x Hx.
    apply Hle. now apply in_select_completed_dates.
Qed.

Lemma streak_loop_expected (ref : date) (i : nat) (s : Z) (x : date) (rest : list date) :
  streak_loop ref i s (x :: rest)
  = match expected_date ref i with
    | Raise e => Raise e
    | Ok expected =>
        if date_eqb x expected
        then streak_loop ref (S i) (s + 1) rest
        else Ok s
    end.
Proof.
  unfold expected_date. cbn [streak_loop].
  destruct (timedelta (Z.of_nat i)); reflexivity.
Qed.

(** The expected date exists exactly when it is not before 0001-01-01; the
    only exception the subtraction raises is [OverflowError]. *)
Lemma expected_date_cases (ref : date) (i : nat) :
  (exists e, expected_date ref i = Ok e
             /\ toordinal e = toordinal ref - Z.of_nat i)
  \/ (expected_date ref i = Raise OverflowError
      /\ toordinal ref - Z.of_nat i < 1).
Proof.
  pose proof (date_bounds ref) as Hr. unfold MAXORDINAL in Hr.
  unfold expected_date.
  destruct (Z_lt_le_dec (toordinal ref - Z.of_nat i) 1) as [Hlt | Hge].
  - right. split; [| exact Hlt].
    destruct (timedelta (Z.of_nat i)) as [delta | e] eqn:Et.
    + apply timedelta_inv in Et. subst delta. now apply date_sub_overflow.
    + apply timedelta_raises in Et. now destruct Et as [-> _].
  - left. rewrite timedelta_ok by lia.
    apply date_sub_ok. unfold MAXORDINAL. lia.
Qed.

(** The scan from index [i + 1] as of a day is the scan from index [i] as
    of the day before, one higher. *)
Lemma streak_loop_shift (d y : date) (l : list date) :
  toordinal y = toordinal d - 1 ->
  forall (i : nat) (s : Z),
    streak_loop d (S i) (s + 1) l
    = match streak_loop y i s l with
      | Ok n => Ok (n + 1)
      | Raise e => Raise e
      end.
Proof.
  intros Hy. induction l as [| x rest IH]; intros i s; [reflexivity |].
  rewrite !streak_loop_expected.
  destruct (expected_date_cases y i) as [[ey [Ey Oy]] | [Ey Oy]];
    destruct (expected_date_cases d (S i)) as [[ed [Ed Od]] | [Ed Od]];
    rewrite Ey, Ed.
  - assert (Eq : date_eqb x ed = date_eqb x ey)
      by (unfold date_eqb; f_equal; lia).
    rewrite Eq. destruct (date_eqb x ey); [apply IH | reflexivity].
  - pose proof (date_bounds ey). lia.
  - pose proof (date_bounds ed). lia.
  - reflexivity.
Qed.

Lemma streak_loop_first_matches (ref : date) (rest : list date) :
  streak_loop ref 0 0 (ref :: rest) = streak_loop ref 1 1 rest.
Proof.
  simpl. rewrite date_sub_zero.
  now rewrite (proj2 (date_eqb_eq ref ref) eq_refl).
Qed.

(** X6.  Checking in on a new day continues the run: when every completed
    record of the habit is dated before today and the streak as of
    yesterday was [k], a completed check-in today makes the streak
    [k + 1]. *)
Theorem checkin_extends_streak (hid k : Z) (yesterday : date) (w : world) :
  toordinal yesterday = toordinal (today w) - 1 ->
  (forall d, completed_on (db w) hid d -> toordinal d <= toordinal yesterday) ->
  fst (get_streak hid (as_of w yesterday)) = Ok k ->
  fst (get_streak hid (snd (log_checkin hid true None w))) = Ok (k + 1).
Proof.
  intros Hy Hpast Hk.
  rewrite log_checkin_appends. cbn [snd].
  rewrite get_streak_eq in Hk. cbn [fst] in Hk.
  change (db (as_of w yesterday)) with (db w) in Hk.
  change (today (as_of w yesterday)) with yesterday in Hk.
  rewrite get_streak_eq. cbn [fst].
  rewrite select_completed_dates_after_latest
    by (intros d Hd; specialize (Hpast d Hd); cbn [checkin_day]; lia).
  change (today (after_checkin hid true None w)) with (today w).
  cbn [checkin_day].
  rewrite streak_loop_first_matches.
  change 1 with (0 + 1) at 2.
  rewrite (streak_loop_shift (today w) yesterday _ Hy 0%nat 0), Hk.
  reflexivity.
Qed.

Lemma checkin_extends_streak_witness :
  fst (get_streak 1 (snd (log_checkin 1 true None (world_of two_days jul30)))) = Ok (2 + 1).
Proof.
  apply (checkin_extends_streak 1 2 jul29 (world_of two_days jul30)).
  - reflexivity.
  - intros d (r & Hin & _ & _ & <-). simpl in Hin.
    destruct Hin as [<- | [<- | []]]; simpl; lia.
  - reflexivity.
Defined.

End CheckinAndStreak.

Section CheckinToday.
Import Database Terms Scenarios EdgeScenarios StreakTerms.

(** X7.  After a completed check-in today the streak is at least 1,
    provided no completed record of the habit is dated after today (and the
    habit has fewer completed rows than days since 0001-01-01, so that the
    scan cannot overflow). *)
Theorem completed_checkin_counts_today (hid : Z) (w : world) :
  (forall d, completed_on (db w) hid d -> toordinal d <= toordinal (today w)) ->
  Z.of_nat (List.length (completed_rows (db w) hid)) < toordinal (today w) ->
  exists n,
    get_streak hid (snd (log_checkin hid true None w))
    = (Ok n, snd (log_checkin hid true None w))
    /\ 1 <= n.
Proof.
  intros Hpast Hlen. rewrite log_checkin_appends. cbn [snd].
  rewrite get_streak_eq.
  rewrite select_completed_dates_after_latest by exact Hpast.
  change (today (after_checkin hid true None w)) with (today w).
  cbn [checkin_day]. rewrite streak_loop_first_matches.
  destruct (streak_loop_returns (today w) (select_completed_dates hid (db w)) 1 1)
    as [n Hn].
  - rewrite select_completed_dates_length. lia.
  - exists n. rewrite Hn. split; [reflexivity |].
    apply streak_loop_sound in Hn. lia.
Qed.

Lemma completed_checkin_counts_today_witness :
  exists n,
    get_streak 1 (snd (log_checkin 1 true None (world_of with_gap jul30)))
    = (Ok n, snd (log_checkin 1 true None (world_of with_gap jul30)))
    /\ 1 <= n.
Proof.
  apply (completed_checkin_counts_today 1 (world_of with_gap jul30)).
  - intros d (r & Hin & _ & _ & <-). simpl in Hin.
    destruct Hin as [<- | [<- | [<- | []]]]; simpl; lia.
  - simpl. lia.
Defined.

(** The most recent completed date is the first one listed. *)
Lemma select_completed_dates_starts_today (hid : Z) (w : world) :
  completed_on (db w) hid (today w) ->
  (forall d, completed_on (db w) hid d -> toordinal d <= toordinal (today w)) ->
  exists rest, select_completed_dates hid (db w) = today w :: rest.
Proof.
  intros Htoday Hpast.
  pose proof (order_by_desc_sorted
                (map checkin_date (filter (is_completed_for hid) (progress (db w)))))
    as Hs.
  fold (select_completed_dates hid (db w)) in Hs.
  apply in_select_completed_dates in Htoday.
  destruct (select_completed_dates hid (db w)) as [| x rest] eqn:E; [contradiction |].
  exists rest. f_equal. apply date_eq.
  assert (Hx : toordinal x <= toordinal (today w)).
  { apply Hpast. apply in_select_completed_dates. rewrite E. now left. }
  destruct Htoday as [-> | Hin]; [reflexivity |].
  inversion Hs as [| ? ? _ Hall]; subst. rewrite Forall_forall in Hall.
  specialize (Hall _ Hin). unfold desc in Hall. lia.
Qed.

(** X8.  A second completed check-in on a day that already has one sets
    the streak to 1, whatever it was before: the day is then listed twice
    and the scan stops at its second entry (no completed record dated after
    today; today is not 0001-01-01). *)
Theorem repeated_checkin_resets_streak (hid : Z) (w : world) :
  completed_on (db w) hid (today w) ->
  (forall d, completed_on (db w) hid d -> toordinal d <= toordinal (today w)) ->
  1 < toordinal (today w) ->
  get_streak hid (snd (log_checkin hid true None w))
  = (Ok 1, snd (log_checkin hid true None w)).
Proof.
  intros Htoday Hpast Hnotfirst. rewrite log_checkin_appends. cbn [snd].
  rewrite get_streak_eq. f_equal.
  rewrite select_completed_dates_after_latest by exact Hpast.
  change (today (after_checkin hid true None w)) with (today w).
  cbn [checkin_day]. rewrite streak_loop_first_matches.
  destruct (select_completed_dates_starts_today hid w Htoday Hpast) as [rest ->].
  rewrite streak_loop_expected.
  destruct (expected_date_cases (today w) 1) as [[e [Ee Oe]] | [_ Hlt]];
    [| simpl in Hlt; lia].
  rewrite Ee.
  assert (Hne : date_eqb (today w) e = false)
    by (apply date_eqb_neq; simpl in Oe; lia).
  now rewrite Hne.
Qed.

Lemma repeated_checkin_resets_streak_witness :
  get_streak 1 (snd (log_checkin 1 true None (world_of two_days jul29)))
  = (Ok 1, snd (log_checkin 1 true None (world_of two_days jul29))).
Proof.
  apply (repeated_checkin_resets_streak 1 (world_of two_days jul29)).
  - exists (mk_progress 2 1 jul29 1). simpl. intuition.
  - intros d (r & Hin & _ & _ & <-). simpl in Hin.
    destruct Hin as [<- | [<- | []]]; simpl; lia.
  - simpl. lia.
Defined.

End CheckinToday.

(** ** Users *)

Section Users.
Import Database Store Scenarios.
Open Scope string_scope.

Lemma max_rowid_ge (ids : list Z) (id : Z) : In id ids -> id <= max_rowid ids.
Proof.
  induction ids as [| x xs IH]; simpl; [contradiction |].
  intros [<- | H]; [lia |]. specialize (IH H). lia.
Qed.

Lemma next_rowid_above (seq : Z) (ids : list Z) (id : Z) :
  In id ids -> id < next_rowid seq ids.
Proof.
  intros H. apply max_rowid_ge in H. unfold next_rowid. lia.
Qed.

Lemma next_rowid_fresh (seq : Z) (ids : list Z) : ~ In (next_rowid seq ids) ids.
Proof.
  intros H. apply (next_rowid_above seq) in H. lia.
Qed.

Lemma find_app_none {A : Type} (f : A -> bool) (l l' : list A) :
  find f l = None -> find f (l ++ l') = find f l'.
Proof.
  induction l as [| x xs IH]; simpl; [reflexivity |].
  destruct (f x); [discriminate | exact IH].
Qed.

Lemma find_app_some {A : Type} (f : A -> bool) (l l' : list A) (x : A) :
  find f l = Some x -> find f (l ++ l') = Some x.
Proof.
  induction l as [| y ys IH]; simpl; [discriminate |].
  destruct (f y); [trivial | exact IH].
Qed.

Lemma existsb_find {A : Type} (f : A -> bool) (l : list A) :
  existsb f l = true <-> exists x, find f l = Some x.
Proof.
  induction l as [| y ys IH]; simpl.
  - split; [discriminate | intros [x H]; discriminate].
  - destruct (f y); simpl; [| exact IH].
    split; [intros _; now exists y | reflexivity].
Qed.

Lemma user_named_refl (name : string) (id : Z) :
  user_named name (mk_user id name) = true.
Proof. unfold user_named. simpl. apply String.eqb_refl. Qed.

(** A user that is found is added again without any change. *)
Lemma add_user_known (name : string) (id : Z) (st : state) :
  select_user_id name st = (Ok (Some id), st) ->
  add_user name st = (Ok id, st).
Proof.
  unfold select_user_id, add_user, insert_user. intros H.
  injection H as H.
  destruct (find (user_named name) (users st)) as [u |] eqn:F; [| discriminate].
  assert (E : existsb (user_named name) (users st) = true)
    by (apply existsb_find; now exists u).
  rewrite E. unfold select_user_id. rewrite F. simpl in *. congruence.
Qed.

Lemma add_user_result (name : string) (st : state) :
  exists id st',
    add_user name st = (Ok id, st')
    /\ select_user_id name st' = (Ok (Some id), st')
    /\ base st' = base st
    /\ habits_seq st' = habits_seq st.
Proof.
  unfold add_user, insert_user.
  destruct (existsb (user_named name) (users st)) eqn:E.
  - apply existsb_find in E. destruct E as [u F].
    exists (user_id u), st. unfold select_user_id. rewrite F. simpl.
    repeat split.
  - assert (F : find (user_named name) (users st) = None).
    { destruct (find (user_named name) (users st)) as [u |] eqn:F; [| reflexivity].
      assert (existsb (user_named name) (users st) = true)
        by (apply existsb_find; now exists u).
      congruence. }
    eexists. eexists. split; [reflexivity |].
    unfold select_user_id. cbn [users].
    rewrite (find_app_none _ _ _ F). simpl. rewrite user_named_refl.
    repeat split.
Qed.

(** X9.  [add_user] never fails; the id it returns is the one
    [get_user_id] finds for that name afterwards; and it touches neither
    the habits nor the check-ins. *)
Theorem add_user_then_get_user_id (name : string) (st : state) :
  exists id st',
    add_user name st = (Ok id, st')
    /\ get_user_id name st' = (Ok (Some id), st')
    /\ base st' = base st
    /\ habits_seq st' = habits_seq st.
Proof. unfold get_user_id. apply add_user_result. Qed.

(** X10.  Adding a name a second time returns the id of the first time
    and leaves the database as it is. *)
Theorem add_user_twice (name : string) (id : Z) (st st' : state) :
  add_user name st = (Ok id, st') ->
  add_user name st' = (Ok id, st').
Proof.
  intros H.
  destruct (add_user_result name st) as (id0 & st0 & Hadd & Hget & _).
  rewrite H in Hadd. injection Hadd as <- <-.
  now apply add_user_known.
Qed.

Lemma add_user_twice_witness :
  add_user "Bea" (snd (add_user "Bea" (state_of (world_of two_days jul29))))
  = (Ok 2, snd (add_user "Bea" (state_of (world_of two_days jul29)))).
Proof.
  apply (add_user_twice "Bea" 2 (state_of (world_of two_days jul29))).
  reflexivity.
Defined.

Lemma not_named_not_in (name : string) (l : list user_row) :
  existsb (user_named name) l = false -> ~ In name (map user_name l).
Proof.
  intros E Hin. apply in_map_iff in Hin. destruct Hin as [u [Hu Hin]].
  assert (existsb (user_named name) l = true).
  { apply existsb_exists. exists u. split; [exact Hin |].
    unfold user_named. rewrite Hu. apply String.eqb_refl. }
  congruence.
Qed.

Lemma NoDup_snoc {A : Type} (l : list A) (x : A) :
  NoDup l -> ~ In x l -> NoDup (l ++ [x]).
Proof.
  intros Hl Hx. eapply Permutation_NoDup; [apply Permutation_cons_append |].
  now constructor.
Qed.

(** X11.  [add_user] keeps the users table well formed: if no two users
    share a name and no two share an id before the call, the same holds
    after it, and every other name keeps the id it had. *)
Theorem add_user_keeps_users_unique
    (name : string) (r : result Z) (st st' : state) :
  NoDup (map user_name (users st)) ->
  NoDup (map user_id (users st)) ->
  add_user name st = (r, st') ->
  NoDup (map user_name (users st'))
  /\ NoDup (map user_id (users st'))
  /\ forall other, other <> name ->
       get_user_id other st' = (fst (get_user_id other st), st').
Proof.
  intros Hnames Hids. unfold add_user, insert_user.
  destruct (existsb (user_named name) (users st)) eqn:E.
  - unfold select_user_id.
    destruct (find (user_named name) (users st)); intros H; injection H as <- <-;
      repeat split; assumption.
  - intros H. injection H as <- <-. cbn [users].
    rewrite !map_app. simpl map.
    split; [apply NoDup_snoc; [exact Hnames | now apply not_named_not_in] |].
    split; [apply NoDup_snoc; [exact Hids | apply next_rowid_fresh] |].
    intros other Hne. unfold get_user_id, select_user_id. cbn [users fst].
    f_equal. f_equal. f_equal.
    destruct (find (user_named other) (users st)) as [u |] eqn:F.
    + now apply find_app_some.
    + rewrite (find_app_none _ _ _ F). simpl. unfold user_named. simpl.
      destruct (String.eqb_spec name other); [congruence | reflexivity].
Qed.

Lemma add_user_keeps_users_unique_witness :
  NoDup (map user_name (users (snd (add_user "Bea" (state_of (world_of two_days jul29))))))
  /\ NoDup (map user_id (users (snd (add_user "Bea" (state_of (world_of two_days jul29))))))
  /\ forall other, other <> "Bea"%string ->
       get_user_id other (snd (add_user "Bea" (state_of (world_of two_days jul29))))
       = (fst (get_user_id other (state_of (world_of two_days jul29))),
          snd (add_user "Bea" (state_of (world_of two_days jul29)))).
Proof.
  apply (add_user_keeps_users_unique "Bea" (Ok 2) (state_of (world_of two_days jul29))).
  - simpl. repeat constructor; simpl; intuition discriminate.
  - simpl. repeat constructor; simpl; intuition discriminate.
  - reflexivity.
Defined.

End Users.

(** ** Habits *)

Section Habits.
Import Database Store Terms StreakTerms Scenarios.

Lemma insert_by_id_perm (h : habit_row) (l : list habit_row) :
  Permutation (h :: l) (insert_by_id h l).
Proof.
  induction l as [| x xs IH]; simpl; [apply Permutation_refl |].
  destruct (habit_id h <=? habit_id x); [apply Permutation_refl |].
  eapply perm_trans; [apply perm_swap | now apply perm_skip].
Qed.

Lemma order_by_id_perm (l : list habit_row) : Permutation l (order_by_id l).
Proof.
  induction l as [| x xs IH]; simpl; [constructor |].
  eapply perm_trans; [| apply insert_by_id_perm]. now apply perm_skip.
Qed.

Lemma insert_by_id_sorted (h : habit_row) (l : list habit_row) :
  StronglySorted by_id l -> StronglySorted by_id (insert_by_id h l).
Proof.
  induction l as [| x xs IH]; simpl; intros Hs; [repeat constructor |].
  inversion Hs as [| ? ? Hxs Hall]; subst.
  destruct (Z.leb_spec (habit_id h) (habit_id x)) as [E | E].
  - constructor; [assumption |]. constructor; [exact E |].
    rewrite Forall_forall in *. intros y Hy. specialize (Hall y Hy).
    unfold by_id in *. lia.
  - constructor; [now apply IH |].
    rewrite Forall_forall in *. intros y Hy.
    apply (Permutation_in _ (Permutation_sym (insert_by_id_perm h xs))) in Hy.
    destruct Hy as [<- | Hy]; [unfold by_id; lia | now apply Hall].
Qed.

Lemma order_by_id_sorted (l : list habit_row) : StronglySorted by_id (order_by_id l).
Proof.
  induction l as [| x xs IH]; simpl; [constructor | now apply insert_by_id_sorted].
Qed.

Lemma insert_by_id_snoc (h x : habit_row) (l : list habit_row) :
  habit_id h <= habit_id x ->
  insert_by_id h (l ++ [x]) = insert_by_id h l ++ [x].
Proof.
  intros Hle. induction l as [| y ys IH]; simpl.
  - apply Z.leb_le in Hle. now rewrite Hle.
  - destruct (habit_id h <=? habit_id y); [reflexivity | now rewrite IH].
Qed.

(** A row with the largest id stays last. *)
Lemma order_by_id_snoc (x : habit_row) (l : list habit_row) :
  (forall h, In h l -> habit_id h <= habit_id x) ->
  order_by_id (l ++ [x]) = order_by_id l ++ [x].
Proof.
  induction l as [| y ys IH]; intros Hle; [reflexivity |].
  simpl. rewrite IH by (intros h Hh; apply Hle; now right).
  apply insert_by_id_snoc. apply Hle. now left.
Qed.

Lemma StronglySorted_map {A B : Type} (f : A -> B)
    (R : A -> A -> Prop) (Q : B -> B -> Prop) (l : list A) :
  (forall a b, R a b -> Q (f a) (f b)) ->
  StronglySorted R l -> StronglySorted Q (map f l).
Proof.
  intros HRQ. induction 1 as [| a l Hs IH Hall]; simpl; constructor.
  - exact IH.
  - rewrite Forall_forall in *. intros y Hy.
    apply in_map_iff in Hy. destruct Hy as [b [<- Hb]]. apply HRQ. now apply Hall.
Qed.

(** X12.  [get_habits] returns the habits of the given user and no other:
    one entry per row of the user, with the id, name and start date of the
    row, in ascending order of id; it writes nothing. *)
Theorem get_habits_exact_ascending (uid : Z) (st : state) :
  exists l,
    get_habits uid st = (Ok l, st)
    /\ (forall v, In v l <->
          exists h, In h (habits (db (base st)))
                    /\ habit_user_id h = uid /\ view_of h = v)
    /\ Permutation (map view_of (filter (owned_by uid) (habits (db (base st))))) l
    /\ StronglySorted (fun a b => view_id a <= view_id b) l.
Proof.
  eexists. split; [reflexivity |].
  split; [| split].
  - intros v. rewrite in_map_iff. split.
    + intros [h [Hv Hin]].
      apply (Permutation_in _ (Permutation_sym (order_by_id_perm _))) in Hin.
      apply filter_In in Hin. destruct Hin as [Hin Ho].
      exists h. unfold owned_by in Ho. apply Z.eqb_eq in Ho. tauto.
    + intros [h [Hin [Hu Hv]]]. exists h. split; [exact Hv |].
      apply (Permutation_in _ (order_by_id_perm _)).
      apply filter_In. split; [exact Hin |]. unfold owned_by. now apply Z.eqb_eq.
  - apply Permutation_map, order_by_id_perm.
  - apply (StronglySorted_map view_of by_id); [| apply order_by_id_sorted].
    intros a b H. exact H.
Qed.

Lemma habit_exists_iff (hid : Z) (d : database) :
  habit_exists hid d = true <-> In hid (map habit_id (habits d)).
Proof.
  unfold habit_exists. rewrite existsb_exists, in_map_iff. split.
  - intros [h [Hin E]]. apply Z.eqb_eq in E. now exists h.
  - intros [h [E Hin]]. exists h. split; [exact Hin | now apply Z.eqb_eq].
Qed.

(** What [add_habit] returns and leaves behind. *)
Lemma add_habit_result (uid : Z) (name : string) (st : state) :
  let hid := next_rowid (habits_seq st) (map habit_id (habits (db (base st)))) in
  add_habit uid name st
  = (Ok hid,
     {| base := {| db := {| habits := habits (db (base st))
                                       ++ [mk_habit hid uid name (today (base st))];
                            progress := progress (db (base st));
                            progress_seq := progress_seq (db (base st)) |};
                   today := today (base st) |};
        users := users st;
        users_seq := users_seq st;
        habits_seq := hid |}).
Proof. reflexivity. Qed.

(** X13.  For a user id that SQLite can hold, [add_habit] does not fail,
    whether a user has that id or not (it does not look the user up); the
    id it returns was not in use and names the new habit afterwards; the
    new habit comes last in the user's [get_habits], started today, behind
    the habits listed before; the lists of all other users, the users and
    the check-ins are unchanged. *)
Theorem add_habit_appends (uid : Z) (name : string) (st : state) :
  sqlite_integer uid ->
  exists hid st' before,
    add_habit uid name st = (Ok hid, st')
    /\ habit_exists hid (db (base st)) = false
    /\ habit_exists hid (db (base st')) = true
    /\ get_habits uid st = (Ok before, st)
    /\ get_habits uid st'
       = (Ok (before ++ [mk_view hid name (today (base st))]), st')
    /\ (forall uid', uid' <> uid ->
          fst (get_habits uid' st') = fst (get_habits uid' st))
    /\ progress (db (base st')) = progress (db (base st))
    /\ users st' = users st.
Proof.
  intros _.
  pose proof (add_habit_result uid name st) as Hadd. cbv zeta in Hadd.
  set (hid := next_rowid (habits_seq st) (map habit_id (habits (db (base st))))) in *.
  eexists. eexists. eexists.
  split; [exact Hadd |].
  split.
  { destruct (habit_exists hid (db (base st))) eqn:E; [| reflexivity].
    apply habit_exists_iff in E. exfalso. exact (next_rowid_fresh _ _ E). }
  split.
  { apply habit_exists_iff. cbn [base db habits]. rewrite map_app.
    apply in_or_app. right. now left. }
  split; [reflexivity |].
  split.
  { unfold get_habits. cbn [base db habits]. f_equal. f_equal.
    rewrite filter_app. cbn [filter]. unfold owned_by at 2. cbn [habit_user_id].
    rewrite Z.eqb_refl, order_by_id_snoc, map_app; [reflexivity |].
    intros h Hh. apply filter_In in Hh. destruct Hh as [Hh _].
    cbn [habit_id]. apply Z.lt_le_incl. apply next_rowid_above.
    now apply in_map. }
  split.
  { intros uid' Hne. unfold get_habits. cbn [base db habits fst].
    rewrite filter_app. cbn [filter]. unfold owned_by at 2. cbn [habit_user_id].
    destruct (Z.eqb_spec uid uid'); [congruence |]. now rewrite app_nil_r. }
  split; reflexivity.
Qed.

Lemma add_habit_appends_witness :
  exists hid st' before,
    add_habit 7 "Run" (state_of (world_of two_days jul29)) = (Ok hid, st')
    /\ habit_exists hid (db (base (state_of (world_of two_days jul29)))) = false
    /\ habit_exists hid (db (base st')) = true
    /\ get_habits 7 (state_of (world_of two_days jul29))
       = (Ok before, state_of (world_of two_days jul29))
    /\ get_habits 7 st'
       = (Ok (before ++ [mk_view hid "Run"
                           (today (base (state_of (world_of two_days jul29))))]), st')
    /\ (forall uid', uid' <> 7 ->
          fst (get_habits uid' st')
          = fst (get_habits uid' (state_of (world_of two_days jul29))))
    /\ progress (db (base st'))
       = progress (db (base (state_of (world_of two_days jul29))))
    /\ users st' = users (state_of (world_of two_days jul29)).
Proof.
  apply (add_habit_appends 7 "Run" (state_of (world_of two_days jul29))).
  unfold sqlite_integer. lia.
Defined.

End Habits.

(** ** Habits and check-ins together *)

Section ReferentialIntegrity.
Import Database Store Terms StreakTerms Scenarios.

Lemma select_completed_dates_none (hid : Z) (d : database) :
  (forall r, In r (progress d) -> progress_habit_id r <> hid) ->
  select_completed_dates hid d = [].
Proof.
  intros Hrows.
  destruct (select_completed_dates hid d) as [| x xs] eqn:E; [reflexivity |].
  exfalso. assert (Hx : completed_on d hid x)
    by (apply in_select_completed_dates; rewrite E; now left).
  destruct Hx as (r & Hin & Hh & _). exact (Hrows r Hin Hh).
Qed.

(** X14.  A new habit starts at streak 0 and keeps the store consistent:
    when every check-in belongs to a habit of the habits table, the same
    holds after [add_habit], and [get_streak] of the id it returned is 0. *)
Theorem new_habit_starts_at_zero (uid : Z) (name : string) (st : state) :
  referential_integrity (db (base st)) ->
  exists hid st',
    add_habit uid name st = (Ok hid, st')
    /\ on_base (get_streak hid) st' = (Ok 0, st')
    /\ referential_integrity (db (base st')).
Proof.
  intros Hri.
  pose proof (add_habit_result uid name st) as Hadd. cbv zeta in Hadd.
  set (hid := next_rowid (habits_seq st) (map habit_id (habits (db (base st))))) in *.
  eexists. eexists. split; [exact Hadd |].
  split.
  - unfold on_base. cbn [base users users_seq habits_seq].
    rewrite get_streak_eq.
    rewrite select_completed_dates_none; [reflexivity |].
    cbn [db progress]. intros r Hin E.
    specialize (Hri r Hin). rewrite E in Hri.
    apply habit_exists_iff in Hri. exact (next_rowid_fresh _ _ Hri).
  - intros r Hin. cbn [base db progress] in Hin. specialize (Hri r Hin).
    apply habit_exists_iff. apply habit_exists_iff in Hri.
    cbn [base db habits]. rewrite map_app. apply in_or_app. now left.
Qed.

Lemma new_habit_starts_at_zero_witness :
  exists hid st',
    add_habit 1 "Run" (state_of (world_of two_days jul29)) = (Ok hid, st')
    /\ on_base (get_streak hid) st' = (Ok 0, st')
    /\ referential_integrity (db (base st')).
Proof.
  apply (new_habit_starts_at_zero 1 "Run" (state_of (world_of two_days jul29))).
  intros r Hin. simpl in Hin.
  destruct Hin as [<- | [<- | []]]; reflexivity.
Defined.

(** X15.  For a habit id that SQLite can hold, [log_checkin] keeps every
    check-in attached to a habit exactly when the habit it is given
    exists: for such an id that is not in the habits table the row is
    stored all the same and is an orphan. *)
Theorem log_checkin_referential_integrity
    (hid : Z) (c : bool) (day : option date) (w : world) :
  sqlite_integer hid ->
  referential_integrity (db w) ->
  (referential_integrity (db (snd (log_checkin hid c day w)))
   <-> habit_exists hid (db w) = true).
Proof.
  intros _ Hri. rewrite log_checkin_appends. cbn [snd]. split.
  - intros H.
    specialize (H (mk_progress (progress_seq (db w) + 1) hid
                     (checkin_day day w) (Z.b2z c))).
    apply H. cbn [after_checkin db progress]. apply in_or_app. right. now left.
  - intros Hex r Hin. cbn [after_checkin db progress] in Hin.
    apply in_app_or in Hin. destruct Hin as [Hin | [<- | []]].
    + exact (Hri r Hin).
    + exact Hex.
Qed.

Lemma log_checkin_referential_integrity_witness :
  referential_integrity (db (snd (log_checkin 1 true None (world_of two_days jul29))))
  <-> habit_exists 1 (db (world_of two_days jul29)) = true.
Proof.
  apply (log_checkin_referential_integrity 1 true None (world_of two_days jul29)).
  - unfold sqlite_integer. lia.
  - intros r Hin. simpl in Hin.
    destruct Hin as [<- | [<- | []]]; reflexivity.
Defined.

End ReferentialIntegrity.

(** ** The prompts *)

Section PromptFacts.
Import Database Store Utils Chatbot Session Terms Scenarios.
Open Scope string_scope.

Variable strip : string -> string.
Variable lower : string -> string.

(** What the screen shows for the answers that were asked again. *)
Let retries (skipped : list string) : list string :=
  flat_map (fun _ => ["Enter yes or no: "; "Please type 'yes' or 'no'."]) skipped.

Lemma ask_yes_or_no_skips (skipped : list string) (answer : string) (rest : list string) :
  Forall (not_an_answer strip lower) skipped ->
  is_yes_or_no (lower (strip answer)) = true ->
  forall out,
    ask_yes_or_no strip lower (skipped ++ answer :: rest) out
    = (Done (String.prefix "y" (lower (strip answer))),
       {| stdin := rest;
          stdout := out ++ retries skipped ++ ["Enter yes or no: "] |}).
Proof.
  intros Hskip Hans. induction Hskip as [| line skipped Hline _ IH]; intros out.
  - simpl. now rewrite Hans.
  - cbn [app ask_yes_or_no]. unfold not_an_answer in Hline. rewrite Hline.
    rewrite IH. unfold retries. cbn [flat_map]. now rewrite <- !app_assoc.
Qed.

Lemma ask_yes_or_no_eof (lines : list string) :
  Forall (not_an_answer strip lower) lines ->
  forall out,
    ask_yes_or_no strip lower lines out
    = (Failed EOFError,
       {| stdin := []; stdout := out ++ retries lines ++ ["Enter yes or no: "] |}).
Proof.
  intros Hskip. induction Hskip as [| line lines Hline _ IH]; intros out.
  - reflexivity.
  - cbn [ask_yes_or_no]. unfold not_an_answer in Hline. rewrite Hline.
    rewrite IH. unfold retries. cbn [flat_map]. now rewrite <- !app_assoc.
Qed.

Lemma on_base_get_streak (hid : Z) (st : state) :
  on_base (get_streak hid) st = (fst (get_streak hid (base st)), st).
Proof.
  unfold on_base. rewrite get_streak_eq. now destruct st.
Qed.

Lemma on_base_log_checkin (hid : Z) (c : bool) (day : option date) (st : state) :
  on_base (log_checkin hid c day) st
  = (Ok tt, {| base := after_checkin hid c day (base st); users := users st;
               users_seq := users_seq st; habits_seq := habits_seq st |}).
Proof. unfold on_base. now rewrite log_checkin_appends. Qed.

Lemma keeps_pure {A : Type} (a : A) : keeps_store_and_input (pure a).
Proof. intros p r p' H. injection H as _ <-. split; reflexivity. Qed.

Lemma keeps_print (text : string) : keeps_store_and_input (print text).
Proof. intros p r p' H. injection H as _ <-. split; reflexivity. Qed.

Lemma keeps_call {A : Type} (f : environment -> result A) :
  keeps_store_and_input (call f).
Proof.
  intros p r p'. unfold call. destruct (f (env p)); intros H;
    injection H as _ <-; split; reflexivity.
Qed.

Lemma keeps_get_streak (hid : Z) :
  keeps_store_and_input (database_call (on_base (get_streak hid))).
Proof.
  intros p r p'. unfold database_call. rewrite on_base_get_streak.
  destruct (fst (get_streak hid (base (store p)))); intros H;
    injection H as _ <-; split; reflexivity.
Qed.

Lemma keeps_and_then {A B : Type} (m : Proc A) (k : A -> Proc B) :
  keeps_store_and_input m ->
  (forall a, keeps_store_and_input (k a)) ->
  keeps_store_and_input (and_then m k).
Proof.
  intros Hm Hk p r p'. unfold and_then.
  destruct (m p) as [[a | f] q] eqn:E; intros H.
  - destruct (Hm _ _ _ E) as [Hs Hi]. destruct (Hk a _ _ _ H) as [Hs' Hi'].
    split; congruence.
  - injection H as _ <-. exact (Hm _ _ _ E).
Qed.

(** What is left of [daily_checkin] once the answer is recorded reads the
    streak, prints and asks for a message, and changes neither the store
    nor the input. *)
Lemma after_the_record
    (hid : Z) (habit_name user_name : string) (completed : bool) :
  keeps_store_and_input
    (streak <-- (if completed then database_call (on_base (get_streak hid))
                 else pure 0%Z) ;;
     _ <-- (if completed then
              _ <-- print ("Great job! You're on a " ++ str streak ++ "-day streak.") ;;
              let milestone_msg := celebrate_milestone streak in
              match milestone_msg with
              | EmptyString => pure tt
              | _ => print milestone_msg
              end
            else
              print "No worries, tomorrow is a new opportunity to get back on track!") ;;
     message <-- call (fun e => get_motivational_message strip e user_name habit_name streak) ;;
     print (LF ++ "Motivation: " ++ message ++ LF)).
Proof.
  apply keeps_and_then.
  - destruct completed; [apply keeps_get_streak | apply keeps_pure].
  - intros streak. apply keeps_and_then.
    + destruct completed; [| apply keeps_print].
      apply keeps_and_then; [apply keeps_print |].
      intros _. cbv zeta.
      destruct (celebrate_milestone streak); [apply keeps_pure | apply keeps_print].
    + intros _. apply keeps_and_then; [apply keeps_call |].
      intros message. apply keeps_print.
Qed.

(** X16.  [daily_checkin] asks again after every line that is not yes, y,
    no or n (after [strip] and [lower]) and records the first line that
    is: whatever happens afterwards, exactly one check-in of the habit is
    appended, dated today, completed exactly when the answer starts with y;
    the lines up to that answer are consumed and the later ones are left;
    users and habits are unchanged. *)
Theorem daily_checkin_records_first_answer
    (hid : Z) (habit_name user_name : string)
    (skipped : list string) (answer : string) (rest : list string) (p : process) :
  stdin (tty p) = (skipped ++ answer :: rest)%list ->
  Forall (not_an_answer strip lower) skipped ->
  is_yes_or_no (lower (strip answer)) = true ->
  let p' := snd (daily_checkin strip lower hid habit_name user_name p) in
  let w := base (store p) in
  progress (db (base (store p')))
  = (progress (db w)
     ++ [mk_progress (progress_seq (db w) + 1) hid (today w)
           (Z.b2z (String.prefix "y" (lower (strip answer))))])%list
  /\ stdin (tty p') = rest
  /\ habits (db (base (store p'))) = habits (db w)
  /\ users (store p') = users (store p).
Proof.
  intros Hin Hskip Hans. cbv zeta.
  eassert (Hrun : daily_checkin strip lower hid habit_name user_name p = _).
  { unfold daily_checkin.
    unfold and_then at 1. unfold print at 1.
    unfold and_then at 1. unfold read_yes_or_no. cbn [tty write stdin stdout store env].
    rewrite Hin, (ask_yes_or_no_skips _ _ _ Hskip Hans).
    unfold and_then at 1. unfold database_call at 1. cbn [store tty env].
    rewrite on_base_log_checkin. reflexivity. }
  rewrite Hrun. clear Hrun.
  match goal with
  | |- context [snd (?m ?q)] =>
      destruct (m q) as [r p'] eqn:E; apply after_the_record in E
  end.
  destruct E as [Hstore Htty]. cbn [snd]. rewrite Hstore, Htty.
  cbn [store tty stdin base]. repeat split.
Qed.

Lemma ask_habit_name_skips (skipped : list string) (line : string) (rest : list string) :
  Forall (fun l => strip l = EmptyString) skipped ->
  strip line <> EmptyString ->
  forall out,
    exists shown,
      ask_habit_name strip (skipped ++ line :: rest) out
      = (Done (strip line), {| stdin := rest; stdout := out ++ shown |}).
Proof.
  intros Hskip Hline. induction Hskip as [| l skipped Hl _ IH]; intros out.
  - eexists. simpl. destruct (strip line) eqn:E; [congruence | reflexivity].
  - cbn [app ask_habit_name]. rewrite Hl. cbv beta iota zeta.
    destruct (IH ((out ++ ["Enter the name of the habit you want to track: ";
                           "Habit name cannot be empty. Please try again."])%list))
      as [shown Hshown].
    rewrite Hshown. eexists. now rewrite <- !app_assoc.
Qed.

Lemma ask_habit_name_eof (lines : list string) :
  Forall (fun l => strip l = EmptyString) lines ->
  forall out,
    exists shown,
      ask_habit_name strip lines out
      = (Failed EOFError, {| stdin := []; stdout := out ++ shown |}).
Proof.
  intros Hskip. induction Hskip as [| l lines Hl _ IH]; intros out.
  - eexists. reflexivity.
  - cbn [app ask_habit_name]. rewrite Hl. cbv beta iota zeta.
    destruct (IH ((out ++ ["Enter the name of the habit you want to track: ";
                           "Habit name cannot be empty. Please try again."])%list))
      as [shown Hshown].
    rewrite Hshown. eexists. now rewrite <- !app_assoc.
Qed.

(** X17.  When standard input ends before a usable line, a prompt ends
    with [EOFError] and the database is as before: [daily_checkin] records
    nothing unless it read yes, y, no or n, and [_create_new_habit] adds
    nothing unless it read a name that is not blank. *)
Theorem prompts_write_nothing_at_end_of_input
    (hid uid : Z) (habit_name user_name : string) (p : process) :
  (Forall (not_an_answer strip lower) (stdin (tty p)) ->
   fst (daily_checkin strip lower hid habit_name user_name p) = Failed EOFError
   /\ store (snd (daily_checkin strip lower hid habit_name user_name p)) = store p)
  /\ (Forall (fun l => strip l = EmptyString) (stdin (tty p)) ->
      fst (_create_new_habit strip uid p) = Failed EOFError
      /\ store (snd (_create_new_habit strip uid p)) = store p).
Proof.
  split; intros Hall.
  - eassert (Hrun : daily_checkin strip lower hid habit_name user_name p = _).
    { unfold daily_checkin.
      unfold and_then at 1. unfold print at 1.
      unfold and_then at 1. unfold read_yes_or_no.
      cbn [tty write stdin stdout store env].
      rewrite (ask_yes_or_no_eof _ Hall). reflexivity. }
    rewrite Hrun. split; reflexivity.
  - destruct (ask_habit_name_eof _ Hall (stdout (tty p))) as [shown Hshown].
    eassert (Hrun : _create_new_habit strip uid p = _).
    { unfold _create_new_habit.
      unfold and_then at 1. unfold read_habit_name.
      rewrite Hshown. reflexivity. }
    rewrite Hrun. split; reflexivity.
Qed.

(** X18.  [_create_new_habit] asks again after every blank line and adds
    exactly the habit named by the first line that is not blank, with the
    name stripped: its result and its effect on the database are those of
    [add_habit] with that name, and the later lines are left unread. *)
Theorem create_new_habit_uses_first_name
    (uid : Z) (skipped : list string) (line : string) (rest : list string)
    (p : process) :
  stdin (tty p) = (skipped ++ line :: rest)%list ->
  Forall (fun l => strip l = EmptyString) skipped ->
  strip line <> EmptyString ->
  exists hid p',
    _create_new_habit strip uid p = (Done hid, p')
    /\ add_habit uid (strip line) (store p) = (Ok hid, store p')
    /\ stdin (tty p') = rest.
Proof.
  intros Hin Hskip Hline.
  unfold _create_new_habit.
  unfold and_then at 1. unfold read_habit_name. rewrite Hin.
  destruct (ask_habit_name_skips _ _ rest Hskip Hline (stdout (tty p))) as [shown ->].
  unfold and_then at 1. unfold database_call. cbn [store tty env].
  rewrite add_habit_result. cbv zeta.
  eexists. eexists. split; [reflexivity |]. split; reflexivity.
Qed.

Lemma get_motivational_message_returns
    (e : environment) (user_name habit_name : string) (streak : Z) :
  (forall sys hum exc, chat_openai e sys hum = Raise exc -> is_Exception exc = true) ->
  exists message,
    get_motivational_message strip e user_name habit_name streak = Ok message.
Proof.
  intros Hprov. unfold get_motivational_message.
  destruct (api_key_missing (getenv_OPENAI_API_KEY e)).
  - destruct (get_random_quote_total (random_draw e)) as [q [Hq _]]. now exists q.
  - destruct (chat_openai e system_prompt (human_prompt user_name habit_name streak))
      as [content | exc] eqn:E.
    + now exists (strip content).
    + rewrite (Hprov _ _ _ E).
      destruct (get_random_quote_total (random_draw e)) as [q [Hq _]]. now exists q.
Qed.

Lemma get_streak_after_checkin_returns
    (hid : Z) (c : bool) (w : world) :
  Z.of_nat (List.length (completed_rows (db w) hid)) < toordinal (today w) ->
  exists n, fst (get_streak hid (after_checkin hid c None w)) = Ok n.
Proof.
  intros Hlen. rewrite get_streak_eq. cbn [fst].
  apply streak_loop_returns.
  rewrite select_completed_dates_length, completed_rows_after_checkin, length_app.
  change (today (after_checkin hid c None w)) with (today w).
  destruct c; simpl List.length; lia.
Qed.

(** X19.  The check-in dialogue ends normally: once [daily_checkin] reads
    yes, y, no or n it returns without an exception, provided the habit id
    is one SQLite can hold, the provider call raises nothing but exceptions
    of class [Exception] (or no key is set) and the habit has fewer
    completed rows than days since 0001-01-01. *)
Theorem daily_checkin_ends_normally
    (hid : Z) (habit_name user_name : string)
    (skipped : list string) (answer : string) (rest : list string) (p : process) :
  sqlite_integer hid ->
  stdin (tty p) = (skipped ++ answer :: rest)%list ->
  Forall (not_an_answer strip lower) skipped ->
  is_yes_or_no (lower (strip answer)) = true ->
  (forall sys hum exc,
     chat_openai (env p) sys hum = Raise exc -> is_Exception exc = true) ->
  Z.of_nat (List.length (completed_rows (db (base (store p))) hid))
  < toordinal (today (base (store p))) ->
  fst (daily_checkin strip lower hid habit_name user_name p) = Done tt.
Proof.
  intros _ Hin Hskip Hans Hprov Hlen.
  eassert (Hrun : daily_checkin strip lower hid habit_name user_name p = _).
  { unfold daily_checkin.
    unfold and_then at 1. unfold print at 1.
    unfold and_then at 1. unfold read_yes_or_no. cbn [tty write stdin stdout store env].
    rewrite Hin, (ask_yes_or_no_skips _ _ _ Hskip Hans).
    unfold and_then at 1. unfold database_call at 1. cbn [store tty env].
    rewrite on_base_log_checkin. reflexivity. }
  rewrite Hrun. clear Hrun.
  destruct (String.prefix "y" (lower (strip answer))) eqn:Hyes.
  - destruct (get_streak_after_checkin_returns hid true (base (store p)) Hlen)
      as [n Hn].
    unfold and_then at 1. unfold database_call. cbn [store tty env].
    rewrite on_base_get_streak. cbn [base]. rewrite Hn.
    destruct (get_motivational_message_returns (env p) user_name habit_name n Hprov)
      as [message Hm].
    unfold and_then, print, call, pure.
    destruct (celebrate_milestone n); cbn [store tty env]; rewrite Hm; reflexivity.
  - destruct (get_motivational_message_returns (env p) user_name habit_name 0 Hprov)
      as [message Hm].
    unfold and_then, print, call, pure. cbn [store tty env]. rewrite Hm. reflexivity.
Qed.

End PromptFacts.

Section PromptRuns.
Import Database Store Utils Chatbot Session Terms Scenarios.
Open Scope string_scope.

Lemma daily_checkin_records_first_answer_witness :
  let p := at_prompt (state_of (world_of two_days jul30)) ["maybe"; "Yes"; "4"] offline in
  let p' := snd (daily_checkin (fun s => s)
                   (fun s => if String.eqb s "Yes" then "yes" else s)
                   1 "Read 10 pages" "Adi" p) in
  progress (db (base (store p')))
  = (progress (db (base (store p)))
     ++ [mk_progress (progress_seq (db (base (store p))) + 1) 1 (today (base (store p)))
           (Z.b2z (String.prefix "y" "yes"))])%list
  /\ stdin (tty p') = ["4"]
  /\ habits (db (base (store p'))) = habits (db (base (store p)))
  /\ users (store p') = users (store p).
Proof.
  apply (daily_checkin_records_first_answer
           (fun s => s) (fun s => if String.eqb s "Yes" then "yes" else s)
           1 "Read 10 pages" "Adi" ["maybe"] "Yes" ["4"]
           (at_prompt (state_of (world_of two_days jul30)) ["maybe"; "Yes"; "4"] offline)).
  - reflexivity.
  - repeat constructor.
  - reflexivity.
Defined.

Lemma create_new_habit_uses_first_name_witness :
  exists hid p',
    _create_new_habit (fun s => s) 1
      (at_prompt (state_of (world_of two_days jul30)) [""; "Run"; "2"] offline)
    = (Done hid, p')
    /\ add_habit 1 "Run" (state_of (world_of two_days jul30)) = (Ok hid, store p')
    /\ stdin (tty p') = ["2"].
Proof.
  apply (create_new_habit_uses_first_name (fun s => s) 1 [""] "Run" ["2"]
           (at_prompt (state_of (world_of two_days jul30)) [""; "Run"; "2"] offline)).
  - reflexivity.
  - repeat constructor.
  - discriminate.
Defined.

Lemma daily_checkin_ends_normally_witness :
  fst (daily_checkin (fun s => s) (fun s => s) 1 "Read 10 pages" "Adi"
         (at_prompt (state_of (world_of two_days jul30)) ["maybe"; "y"] failing_provider))
  = Done tt.
Proof.
  apply (daily_checkin_ends_normally (fun s => s) (fun s => s) 1 "Read 10 pages" "Adi"
           ["maybe"] "y" []
           (at_prompt (state_of (world_of two_days jul30)) ["maybe"; "y"] failing_provider)).
  - unfold sqlite_integer. lia.
  - reflexivity.
  - repeat constructor.
  - reflexivity.
  - intros sys hum exc H. simpl in H. injection H as <-. reflexivity.
  - simpl. lia.
Defined.

End PromptRuns.

(** ** The canned quotes *)

Section Quotes.
Import Utils.

(** X20.  [get_random_quote] never fails and always returns one of the
    seven quotes, none of which is empty; and every one of them is returned
    for some draw of the generator. *)
Theorem get_random_quote_draws_any_quote :
  (forall r, exists quote,
      get_random_quote r = Ok quote /\ In quote QUOTES /\ quote <> EmptyString)
  /\ (forall quote, In quote QUOTES -> exists r, get_random_quote r = Ok quote).
Proof.
  split.
  - intros r. destruct (get_random_quote_total r) as [q [Hq Hin]].
    exists q. split; [exact Hq |]. split; [exact Hin |].
    assert (Hall : Forall (fun s => s <> EmptyString) QUOTES)
      by (repeat constructor; discriminate).
    rewrite Forall_forall in Hall. now apply Hall.
  - intros q Hin. apply In_nth_error in Hin. destruct Hin as [n Hn].
    assert (Hlt : (n < List.length QUOTES)%nat)
      by (apply nth_error_Some; congruence).
    exists n. unfold get_random_quote, random_choice.
    rewrite Nat.mod_small by exact Hlt. now rewrite Hn.
Qed.

End Quotes.
